(** * FoxholeTool: the action engine of [clicker.c]

    A shallow embedding of the hotkey entry point ([handle_action]), of the
    background worker ([worker_thread], [set_all_up]) and of the hotkey
    configuration file ([load_hotkey_config], [save_hotkey_config]) of
    [src/clicker.c], with the properties its specification states about
    them.

    C [int] and [atomic_int] values are integers of [Z]; a value used as a
    condition is true when it is not zero.  [uint64_t] arithmetic is written
    with its wrap-around modulo [2^64].  C strings and file contents are
    lists of characters. *)

From Stdlib Require Import ZArith List Bool Ascii String Lia.
From stdpp Require Import base tactics list.
Import ListNotations.

#[local] Open Scope Z_scope.
#[local] Unset Default Proof Using.

(** ** C conditions *)

(** [if (v)] *)
Definition truthy (v : Z) : bool := negb (v =? 0).

(** [!v] *)
Definition c_not (v : Z) : Z := if v =? 0 then 1 else 0.

(** ** The action enumeration *)

Definition ACTION_SPAM_LMB : Z := 0.
Definition ACTION_HOLD_W : Z := 1.
Definition ACTION_HOLD_S : Z := 2.
Definition ACTION_HOLD_RMB : Z := 3.
Definition ACTION_HOLD_LMB : Z := 4.
Definition ACTION_SUSPEND : Z := 5.
Definition ACTION_EXIT : Z := 6.
Definition ACTION_COUNT : Z := 7.

(** ** Shared global state and the hotkey entry point *)

Module Engine.

(** The atomic globals of the program. *)
Inductive gvar : Set :=
| G_running | G_suspended
| G_spam_left | G_hold_w | G_hold_s | G_hold_lmb | G_hold_rmb
| G_overlay_hidden
| G_saved_x | G_saved_y.

Record globals : Set := Globals {
  g_running : Z;
  g_suspended : Z;
  g_spam_left : Z;
  g_hold_w : Z;
  g_hold_s : Z;
  g_hold_lmb : Z;
  g_hold_rmb : Z;
  g_overlay_hidden : Z;
  g_saved_x : Z;
  g_saved_y : Z
}.

(** The initialisers of the globals. *)
Definition initial_globals : globals :=
  {| g_running := 1; g_suspended := 0;
     g_spam_left := 0; g_hold_w := 0; g_hold_s := 0;
     g_hold_lmb := 0; g_hold_rmb := 0;
     g_overlay_hidden := 0;
     g_saved_x := 0; g_saved_y := 0 |}.

Definition atomic_load (x : gvar) (g : globals) : Z :=
  match x with
  | G_running => g_running g
  | G_suspended => g_suspended g
  | G_spam_left => g_spam_left g
  | G_hold_w => g_hold_w g
  | G_hold_s => g_hold_s g
  | G_hold_lmb => g_hold_lmb g
  | G_hold_rmb => g_hold_rmb g
  | G_overlay_hidden => g_overlay_hidden g
  | G_saved_x => g_saved_x g
  | G_saved_y => g_saved_y g
  end.

Definition atomic_store (x : gvar) (v : Z) (g : globals) : globals :=
  match x with
  | G_running =>
      Globals v (g_suspended g) (g_spam_left g) (g_hold_w g) (g_hold_s g)
              (g_hold_lmb g) (g_hold_rmb g) (g_overlay_hidden g)
              (g_saved_x g) (g_saved_y g)
  | G_suspended =>
      Globals (g_running g) v (g_spam_left g) (g_hold_w g) (g_hold_s g)
              (g_hold_lmb g) (g_hold_rmb g) (g_overlay_hidden g)
              (g_saved_x g) (g_saved_y g)
  | G_spam_left =>
      Globals (g_running g) (g_suspended g) v (g_hold_w g) (g_hold_s g)
              (g_hold_lmb g) (g_hold_rmb g) (g_overlay_hidden g)
              (g_saved_x g) (g_saved_y g)
  | G_hold_w =>
      Globals (g_running g) (g_suspended g) (g_spam_left g) v (g_hold_s g)
              (g_hold_lmb g) (g_hold_rmb g) (g_overlay_hidden g)
              (g_saved_x g) (g_saved_y g)
  | G_hold_s =>
      Globals (g_running g) (g_suspended g) (g_spam_left g) (g_hold_w g) v
              (g_hold_lmb g) (g_hold_rmb g) (g_overlay_hidden g)
              (g_saved_x g) (g_saved_y g)
  | G_hold_lmb =>
      Globals (g_running g) (g_suspended g) (g_spam_left g) (g_hold_w g)
              (g_hold_s g) v (g_hold_rmb g) (g_overlay_hidden g)
              (g_saved_x g) (g_saved_y g)
  | G_hold_rmb =>
      Globals (g_running g) (g_suspended g) (g_spam_left g) (g_hold_w g)
              (g_hold_s g) (g_hold_lmb g) v (g_overlay_hidden g)
              (g_saved_x g) (g_saved_y g)
  | G_overlay_hidden =>
      Globals (g_running g) (g_suspended g) (g_spam_left g) (g_hold_w g)
              (g_hold_s g) (g_hold_lmb g) (g_hold_rmb g) v
              (g_saved_x g) (g_saved_y g)
  | G_saved_x =>
      Globals (g_running g) (g_suspended g) (g_spam_left g) (g_hold_w g)
              (g_hold_s g) (g_hold_lmb g) (g_hold_rmb g)
              (g_overlay_hidden g) v (g_saved_y g)
  | G_saved_y =>
      Globals (g_running g) (g_suspended g) (g_spam_left g) (g_hold_w g)
              (g_hold_s g) (g_hold_lmb g) (g_hold_rmb g)
              (g_overlay_hidden g) (g_saved_x g) v
  end.

(** An argument of a [printf] call. *)
Inductive printf_arg : Set :=
| ArgStr (s : string)
| ArgInt (n : Z).

(** What a call of the hotkey thread does to the outside, in program
    order: every store to an atomic global, the cursor query, the console
    lines and the overlay redraws. *)
Inductive effect : Set :=
| EStore (x : gvar) (v : Z)
| EGetCursor
| EPrintf (fmt : string) (args : list printf_arg)
| EFflush
| EOverlayDraw.

(** The position the platform reports for the cursor when it is asked
    ([win_get_cursor] / [x11_get_cursor]). *)
Record cursor : Set := Cursor { cursor_x : Z; cursor_y : Z }.

(** Code of the hotkey thread: it reads the cursor, reads and updates the
    globals, and logs its effects. *)
Definition prog (A : Type) : Type :=
  cursor -> globals -> A * globals * list effect.

#[export] Instance prog_ret : MRet prog := fun A a _ g => (a, g, []).

#[export] Instance prog_bind : MBind prog := fun A B k m c g =>
  let '(a, g1, e1) := m c g in
  let '(b, g2, e2) := k a c g1 in
  (b, g2, e1 ++ e2).

Definition load (x : gvar) : prog Z :=
  fun _ g => (atomic_load x g, g, []).

Definition store (x : gvar) (v : Z) : prog unit :=
  fun _ g => (tt, atomic_store x v g, [EStore x v]).

Definition get_cursor : prog (Z * Z) :=
  fun c g => ((cursor_x c, cursor_y c), g, [EGetCursor]).

Definition printf (fmt : string) (args : list printf_arg) : prog unit :=
  fun _ g => (tt, g, [EPrintf fmt args]).

Definition fflush_stdout : prog unit := fun _ g => (tt, g, [EFflush]).

Definition overlay_draw : prog unit := fun _ g => (tt, g, [EOverlayDraw]).

Definition toggle_with_log (name : string) (flag : gvar) : prog unit :=
  v ← load flag;
  let v := c_not v in
  store flag v;;
  printf "%s: %s\n" [ArgStr name; ArgStr (if truthy v then "ON" else "OFF")];;
  fflush_stdout;;
  overlay_draw.

Definition save_cursor_pos : prog unit :=
  p ← get_cursor;
  store G_saved_x (fst p);;
  store G_saved_y (snd p);;
  printf "Saved cursor position: (%d, %d)\n" [ArgInt (fst p); ArgInt (snd p)];;
  fflush_stdout.

Definition handle_action (action : Z) : prog unit :=
  if action =? ACTION_SPAM_LMB then
    s ← load G_suspended;
    (if negb (truthy s) then save_cursor_pos else mret tt);;
    toggle_with_log "Spam LMB" G_spam_left
  else if action =? ACTION_HOLD_W then
    toggle_with_log "Hold W" G_hold_w
  else if action =? ACTION_HOLD_S then
    toggle_with_log "Hold S" G_hold_s
  else if action =? ACTION_HOLD_RMB then
    toggle_with_log "Hold RMB" G_hold_rmb
  else if action =? ACTION_HOLD_LMB then
    toggle_with_log "Hold LMB" G_hold_lmb
  else if action =? ACTION_SUSPEND then
    s ← load G_suspended;
    let s := c_not s in
    store G_suspended s;;
    printf "Suspended: %s\n" [ArgStr (if truthy s then "YES" else "NO")];;
    fflush_stdout;;
    overlay_draw
  else if action =? ACTION_EXIT then
    store G_running 0
  else
    mret tt.

(** The globals an observer on another thread can see while a call runs:
    the initial ones with a prefix of the call's stores applied. *)
Definition apply_effect (g : globals) (e : effect) : globals :=
  match e with
  | EStore x v => atomic_store x v g
  | _ => g
  end.

Definition replay (es : list effect) (g : globals) : globals :=
  fold_left apply_effect es g.

(** Globals and effect log of a call. *)
Definition globals_after {A} (m : prog A) (c : cursor) (g : globals) : globals :=
  snd (fst (m c g)).

Definition effects_of {A} (m : prog A) (c : cursor) (g : globals) : list effect :=
  snd (m c g).

End Engine.

(** ** The worker thread *)

Module Worker.
Import Engine.

(** The two keys the worker holds: ['W'] and ['S'] on Windows, [XK_w] and
    [XK_s] on X11. *)
Inductive held_key : Set := KEY_W | KEY_S.

(** A call of the platform input port: [win_send_key] / [x11_key],
    [win_send_mouse_btn] / [x11_mouse_btn] (button 0 is left, 1 is right)
    and [win_move_mouse_abs] / [x11_move_mouse].  [down] is the second
    argument: [true] for 1 (press) and [false] for 0 (release). *)
Inductive port_call : Set :=
| SendKey (k : held_key) (down : bool)
| SendMouseBtn (button : Z) (down : bool)
| MoveMouse (x y : Z).

(** An input event of the worker: the port call, with the action whose
    block of [worker_thread] (or whose line of [set_all_up]) makes it. *)
Record event : Set := Ev { ev_action : Z; ev_call : port_call }.

(** The local variables of [worker_thread]. *)
Record locals : Set := Locals {
  w_is_down : Z;
  s_is_down : Z;
  lmb_is_down : Z;
  rmb_is_down : Z;
  last_click : Z
}.

Definition initial_locals : locals :=
  {| w_is_down := 0; s_is_down := 0; lmb_is_down := 0; rmb_is_down := 0;
     last_click := 0 |}.

(** What one pass of the loop reads from outside: the value each
    [atomic_load] returns and the value of [now_ms()].  The hotkey thread
    writes the globals concurrently, so a pass may see any values. *)
Record observation : Set := Observation {
  o_running : Z;
  o_suspended : Z;
  o_hold_w : Z;
  o_hold_s : Z;
  o_hold_lmb : Z;
  o_hold_rmb : Z;
  o_spam_left : Z;
  o_now : Z;
  o_saved_x : Z;
  o_saved_y : Z
}.

(** A pass that reads all the globals [g] at once, at time [now]. *)
Definition observe (g : globals) (now : Z) : observation :=
  {| o_running := atomic_load G_running g;
     o_suspended := atomic_load G_suspended g;
     o_hold_w := atomic_load G_hold_w g;
     o_hold_s := atomic_load G_hold_s g;
     o_hold_lmb := atomic_load G_hold_lmb g;
     o_hold_rmb := atomic_load G_hold_rmb g;
     o_spam_left := atomic_load G_spam_left g;
     o_now := now;
     o_saved_x := atomic_load G_saved_x g;
     o_saved_y := atomic_load G_saved_y g |}.

(** [if (is_down) { out(0); is_down = 0; }] of the suspended branch; [out]
    is the port function with its first argument, as the branch names it. *)
Definition release_if_down (action : Z) (out : bool -> port_call) (is_down : Z)
  : Z * list event :=
  if truthy is_down then (0, [Ev action (out false)])
  else (is_down, []).

(** The block of a held action:
    [if (flag) { if (!is_down) { out(1); is_down = 1; } }
     else if (is_down) { out(0); is_down = 0; }]. *)
Definition hold_block (action : Z) (out : bool -> port_call) (flag : Z) (is_down : Z)
  : Z * list event :=
  if truthy flag then
    if negb (truthy is_down) then (1, [Ev action (out true)])
    else (is_down, [])
  else if truthy is_down then (0, [Ev action (out false)])
  else (is_down, []).

Definition UINT64_MOD : Z := 2 ^ 64.

(** The block of the repeated click; [t - last_click] is a [uint64_t]
    subtraction. *)
Definition spam_block (o : observation) (last_click : Z) : Z * list event :=
  if truthy (o_spam_left o) then
    let t := o_now o in
    if 30 <=? (t - last_click) mod UINT64_MOD then
      (t, [Ev ACTION_SPAM_LMB (MoveMouse (o_saved_x o) (o_saved_y o));
           Ev ACTION_SPAM_LMB (SendMouseBtn 0 true);
           Ev ACTION_SPAM_LMB (SendMouseBtn 0 false)])
    else (last_click, [])
  else (last_click, []).

(** The body of the [while] loop of [worker_thread]: one pass. *)
Definition worker_pass (o : observation) (l : locals) : locals * list event :=
  if truthy (o_suspended o) then
    let '(w, e1) := release_if_down ACTION_HOLD_W (SendKey KEY_W) (w_is_down l) in
    let '(s, e2) := release_if_down ACTION_HOLD_S (SendKey KEY_S) (s_is_down l) in
    let '(lmb, e3) :=
      release_if_down ACTION_HOLD_LMB (SendMouseBtn 0) (lmb_is_down l) in
    let '(rmb, e4) :=
      release_if_down ACTION_HOLD_RMB (SendMouseBtn 1) (rmb_is_down l) in
    (Locals w s lmb rmb (last_click l), e1 ++ e2 ++ e3 ++ e4)
  else
    let '(w, e1) :=
      hold_block ACTION_HOLD_W (SendKey KEY_W) (o_hold_w o) (w_is_down l) in
    let '(s, e2) :=
      hold_block ACTION_HOLD_S (SendKey KEY_S) (o_hold_s o) (s_is_down l) in
    let '(lmb, e3) :=
      hold_block ACTION_HOLD_LMB (SendMouseBtn 0) (o_hold_lmb o) (lmb_is_down l) in
    let '(rmb, e4) :=
      hold_block ACTION_HOLD_RMB (SendMouseBtn 1) (o_hold_rmb o) (rmb_is_down l) in
    let '(lc, e5) := spam_block o (last_click l) in
    (Locals w s lmb rmb lc, e1 ++ e2 ++ e3 ++ e4 ++ e5).

(** [set_all_up]: the five flags are cleared, then the four outputs are
    released. *)
Definition set_all_up (g : globals) : globals * list event :=
  let g := atomic_store G_spam_left 0 g in
  let g := atomic_store G_hold_w 0 g in
  let g := atomic_store G_hold_s 0 g in
  let g := atomic_store G_hold_lmb 0 g in
  let g := atomic_store G_hold_rmb 0 g in
  (g, [Ev ACTION_HOLD_W (SendKey KEY_W false);
       Ev ACTION_HOLD_S (SendKey KEY_S false);
       Ev ACTION_HOLD_LMB (SendMouseBtn 0 false);
       Ev ACTION_HOLD_RMB (SendMouseBtn 1 false)]).

(** The [while (atomic_load(&g_running))] loop over the observations of
    its successive passes.  The result is the locals, the events emitted,
    and whether the loop has left its cycle (it has read [g_running] as
    zero) within these observations. *)
Fixpoint worker_loop (os : list observation) (l : locals)
  : locals * list event * bool :=
  match os with
  | [] => (l, [], false)
  | o :: os' =>
      if truthy (o_running o) then
        let '(l1, e1) := worker_pass o l in
        let '(l2, e2, exited) := worker_loop os' l1 in
        (l2, e1 ++ e2, exited)
      else (l, [], true)
  end.

(** [worker_thread]: the loop from the initial locals, then [set_all_up]
    on the globals [g] of that moment, then the return.  [None] while the
    thread is still polling at the end of the observations. *)
Definition worker_thread (os : list observation) (g : globals)
  : option (globals * list event) :=
  let '(_, e1, exited) := worker_loop os initial_locals in
  if exited then
    let '(g', e2) := set_all_up g in Some (g', e1 ++ e2)
  else None.

End Worker.

(** ** The two threads together *)

Module System.
Import Engine Worker.

(** The program while it runs: the globals, the worker's locals, the input
    events the worker has emitted, the effects of the hotkey thread, and
    whether [worker_thread] has returned. *)
Record system : Set := Sys {
  sys_globals : globals;
  sys_locals : locals;
  sys_events : list event;
  sys_effects : list effect;
  sys_worker_done : bool
}.

Definition initial_system : system :=
  Sys initial_globals initial_locals [] [] false.

(** A step of an execution in which the calls of [handle_action] fall
    between the passes of the worker: a hotkey for action index [action]
    with the cursor at [c], or the worker at the head of its loop at time
    [now]. *)
Inductive step : Set :=
| Hotkey (action : Z) (c : cursor)
| Poll (now : Z).

Definition run_step (s : system) (st : step) : system :=
  match st with
  | Hotkey action c =>
      let '(_, g, es) := handle_action action c (sys_globals s) in
      Sys g (sys_locals s) (sys_events s) (sys_effects s ++ es) (sys_worker_done s)
  | Poll now =>
      if sys_worker_done s then s
      else
        let o := observe (sys_globals s) now in
        if truthy (o_running o) then
          let '(l, ev) := worker_pass o (sys_locals s) in
          Sys (sys_globals s) l (sys_events s ++ ev) (sys_effects s) false
        else
          let '(g, ev) := set_all_up (sys_globals s) in
          Sys g (sys_locals s) (sys_events s ++ ev) (sys_effects s) true
  end.

Definition run (sts : list step) (s : system) : system :=
  fold_left run_step sts s.

End System.

(** ** The hotkey configuration file *)

Module Config.

(** C strings and file contents. *)
Definition lit (s : string) : list ascii := list_ascii_of_string s.

Definition NUL : ascii := "000"%char.
Definition NL : ascii := "010"%char.
Definition CR : ascii := "013"%char.

(** [isspace] in the C locale. *)
Definition isspace (c : ascii) : bool :=
  match c with
  | (" " | "009" | "010" | "011" | "012" | "013")%char => true
  | _ => false
  end.

(** [strcmp(a, b) == 0] *)
Fixpoint strcmp_eq (a b : list ascii) : bool :=
  match a, b with
  | [], [] => true
  | x :: a', y :: b' => Ascii.eqb x y && strcmp_eq a' b'
  | _, _ => false
  end.

(** The characters of a buffer up to its terminating NUL. *)
Fixpoint c_str (buf : list ascii) : list ascii :=
  match buf with
  | [] => []
  | c :: buf' => if Ascii.eqb c NUL then [] else c :: c_str buf'
  end.

Definition toupper_az (c : ascii) : ascii :=
  let n := nat_of_ascii c in
  if (97 <=? n)%nat && (n <=? 122)%nat then ascii_of_nat (n - 97 + 65) else c.

Definition strtoupper_simple (s : list ascii) : list ascii := map toupper_az s.

(** The function keys the program knows. *)
Inductive fkey : Set := F2 | F3 | F4 | F6 | F7 | F8 | F9 | F10 | F11.

Definition g_action_names : list (list ascii) :=
  [lit "Spam LMB"; lit "Hold W"; lit "Hold S"; lit "Hold RMB"; lit "Hold LMB";
   lit "Suspend"; lit "Exit"].

(** [static int g_action_keys[ACTION_COUNT] = {0};] *)
Definition g_action_keys_zero : list Z := replicate (Z.to_nat ACTION_COUNT) 0.

Section Platform.

(** The key codes of the platform headers, which the repository does not
    contain: [VK_F2] ... [VK_F11] of [windows.h], or [XK_F2] ... [XK_F11] of
    [X11/keysym.h]. *)
Variable XK : fkey -> Z.

Definition key_name_from_code (ks : Z) : list ascii :=
  if ks =? XK F2 then lit "F2"
  else if ks =? XK F3 then lit "F3"
  else if ks =? XK F4 then lit "F4"
  else if ks =? XK F6 then lit "F6"
  else if ks =? XK F7 then lit "F7"
  else if ks =? XK F8 then lit "F8"
  else if ks =? XK F9 then lit "F9"
  else if ks =? XK F10 then lit "F10"
  else if ks =? XK F11 then lit "F11"
  else lit "?".

(** [buf] has 16 bytes: [snprintf] keeps the first 15 characters. *)
Definition key_code_from_name (name : list ascii) : Z :=
  match name with
  | [] => 0
  | _ =>
      let buf := strtoupper_simple (take 15 name) in
      if strcmp_eq buf (lit "F2") then XK F2
      else if strcmp_eq buf (lit "F3") then XK F3
      else if strcmp_eq buf (lit "F4") then XK F4
      else if strcmp_eq buf (lit "F6") then XK F6
      else if strcmp_eq buf (lit "F7") then XK F7
      else if strcmp_eq buf (lit "F8") then XK F8
      else if strcmp_eq buf (lit "F9") then XK F9
      else if strcmp_eq buf (lit "F10") then XK F10
      else if strcmp_eq buf (lit "F11") then XK F11
      else 0
  end.

Definition init_default_hotkeys (keys : list Z) : list Z :=
  let keys := <[Z.to_nat ACTION_SPAM_LMB := XK F2]> keys in
  let keys := <[Z.to_nat ACTION_HOLD_W := XK F3]> keys in
  let keys := <[Z.to_nat ACTION_HOLD_S := XK F4]> keys in
  let keys := <[Z.to_nat ACTION_HOLD_RMB := XK F6]> keys in
  let keys := <[Z.to_nat ACTION_HOLD_LMB := XK F7]> keys in
  let keys := <[Z.to_nat ACTION_SUSPEND := XK F9]> keys in
  <[Z.to_nat ACTION_EXIT := XK F10]> keys.

(** [fgets(line, size, f)] on the unread part [f] of the file: [None] at
    the end of the file, else the characters stored in [line] (at most
    [size - 1], ending after the first newline) and the part left unread. *)
Fixpoint fgets_read (room : nat) (f : list ascii) : list ascii * list ascii :=
  match room, f with
  | O, _ => ([], f)
  | _, [] => ([], [])
  | S room', c :: f' =>
      if Ascii.eqb c NL then ([c], f')
      else let '(l, r) := fgets_read room' f' in (c :: l, r)
  end.

Definition fgets (size : nat) (f : list ascii) : option (list ascii * list ascii) :=
  match f with
  | [] => None
  | _ => Some (fgets_read (size - 1) f)
  end.

(** Directives of [sscanf]: skipping white space, and a conversion of width
    [w] that takes the characters satisfying [p]. *)
Fixpoint skip_ws (s : list ascii) : list ascii :=
  match s with
  | c :: s' => if isspace c then skip_ws s' else s
  | [] => []
  end.

Fixpoint scan_while (p : ascii -> bool) (w : nat) (s : list ascii)
  : list ascii * list ascii :=
  match w, s with
  | S w', c :: s' =>
      if p c then let '(l, r) := scan_while p w' s' in (c :: l, r) else ([], s)
  | _, _ => ([], s)
  end.

(** [sscanf(line, " %63[^=]=%63s", key, val)]: the return value (-1 is
    [EOF]), and the strings stored in [key] and [val]. *)
Definition sscanf_key_val (line : list ascii) : Z * list ascii * list ascii :=
  match skip_ws line with
  | [] => (-1, [], [])
  | s0 =>
      let '(key, s1) := scan_while (fun c => negb (Ascii.eqb c "="%char)) 63 s0 in
      match key with
      | [] => (0, [], [])
      | _ =>
          match s1 with
          | c :: s2 =>
              if Ascii.eqb c "="%char then
                match skip_ws s2 with
                | [] => (1, key, [])
                | s3 =>
                    let '(val, _) := scan_while (fun c => negb (isspace c)) 63 s3 in
                    (2, key, val)
                end
              else (1, key, [])
          | [] => (1, key, [])
          end
      end
  end.

(** The search of the action name: the index of the first name equal to
    [key] from index [i] on, or -1. *)
Fixpoint find_action_from (i : Z) (names : list (list ascii)) (key : list ascii) : Z :=
  match names with
  | [] => -1
  | n :: names' =>
      if strcmp_eq key n then i else find_action_from (i + 1) names' key
  end.

(** The body of the [while (fgets(...))] loop for the buffer [buf]. *)
Definition load_line (buf : list ascii) (keys : list Z) : list Z :=
  let line := c_str buf in
  let c0 := hd NUL line in
  if Ascii.eqb c0 "#"%char || Ascii.eqb c0 NL || Ascii.eqb c0 CR then keys
  else
    let '(n, key, val) := sscanf_key_val line in
    if negb (n =? 2) then keys
    else
      let action := find_action_from 0 g_action_names key in
      if action <? 0 then keys
      else
        let code := key_code_from_name val in
        if negb (code =? 0) then <[Z.to_nat action := code]> keys
        else keys.

(** The loop; each [fgets] that succeeds reads at least one character, so
    a fuel of the length of the file is enough. *)
Fixpoint load_loop (fuel : nat) (f : list ascii) (keys : list Z) : list Z :=
  match fuel with
  | O => keys
  | S fuel' =>
      match fgets 256 f with
      | None => keys
      | Some (buf, f') => load_loop fuel' f' (load_line buf keys)
      end
  end.

(** [load_hotkey_config]; [cfg] is the content of the configuration file,
    [None] when [fopen] fails. *)
Definition load_hotkey_config (cfg : option (list ascii)) (keys : list Z) : list Z :=
  match cfg with
  | None => keys
  | Some f => load_loop (length f) f keys
  end.

(** [fprintf(f, "%s=%s\n", name, kname)] *)
Definition config_line (name : list ascii) (kname : list ascii) : list ascii :=
  name ++ ["="%char] ++ kname ++ [NL].

Fixpoint save_loop (names : list (list ascii)) (keys : list Z) : list ascii :=
  match names, keys with
  | name :: names', k :: keys' =>
      config_line name (key_name_from_code k) ++ save_loop names' keys'
  | _, _ => []
  end.

(** [save_hotkey_config]: the content of the configuration file afterwards;
    [writable] tells whether [fopen] for writing succeeds, [cfg] is the
    content before. *)
Definition save_hotkey_config (writable : bool) (cfg : option (list ascii))
    (keys : list Z) : option (list ascii) :=
  if writable then Some (save_loop g_action_names keys) else cfg.

(** The binding tables the program can have: the defaults, changed by
    loading configuration files. *)
Inductive reachable : list Z -> Prop :=
| reach_default : reachable (init_default_hotkeys g_action_keys_zero)
| reach_load cfg keys :
    reachable keys -> reachable (load_hotkey_config cfg keys).

(** Every entry of the table is the code of a known key. *)
Definition known (keys : list Z) : Prop :=
  Forall (fun c => exists k, c = XK k) keys.

End Platform.

(** The key codes of X11 ([X11/keysymdef.h]), an instance of the parameter
    [XK]. *)
Definition x11_keysym (k : fkey) : Z :=
  match k with
  | F2 => 0xffbf | F3 => 0xffc0 | F4 => 0xffc1 | F6 => 0xffc3 | F7 => 0xffc4
  | F8 => 0xffc5 | F9 => 0xffc6 | F10 => 0xffc7 | F11 => 0xffc8
  end.

(** The name [key_name_from_code] gives to the code of a known key. *)
Definition fname (k : fkey) : list ascii :=
  match k with
  | F2 => lit "F2" | F3 => lit "F3" | F4 => lit "F4" | F6 => lit "F6"
  | F7 => lit "F7" | F8 => lit "F8" | F9 => lit "F9" | F10 => lit "F10"
  | F11 => lit "F11"
  end.

(** A file given as its lines, each followed by a newline. *)
Definition file_of_lines (lines : list (list ascii)) : list ascii :=
  concat (map (fun ln => ln ++ [NL]) lines).

(** A line that fits the buffer of [load_hotkey_config] with its newline. *)
Definition fits_buffer (ln : list ascii) : Prop :=
  ~ In NL ln /\ (length ln <= 254)%nat.

(** A line that starts with ['#'], or holds white space only. *)
Definition comment_or_blank (ln : list ascii) : Prop :=
  hd NUL ln = "#"%char \/ Forall (fun c => isspace c = true) ln.

End Config.

(** ** Reading the worker's events *)

Module Trace.
Import Engine Worker.

(** The held-type actions, in the order of their blocks in the loop. *)
Definition held_actions : list Z :=
  [ACTION_HOLD_W; ACTION_HOLD_S; ACTION_HOLD_LMB; ACTION_HOLD_RMB].

(** The local variable that records whether the output of a held action is
    physically down. *)
Definition is_down (a : Z) (l : locals) : Z :=
  if a =? ACTION_HOLD_W then w_is_down l
  else if a =? ACTION_HOLD_S then s_is_down l
  else if a =? ACTION_HOLD_LMB then lmb_is_down l
  else if a =? ACTION_HOLD_RMB then rmb_is_down l
  else 0.

(** The flag of a held action as a pass reads it. *)
Definition desired (a : Z) (o : observation) : Z :=
  if a =? ACTION_HOLD_W then o_hold_w o
  else if a =? ACTION_HOLD_S then o_hold_s o
  else if a =? ACTION_HOLD_LMB then o_hold_lmb o
  else if a =? ACTION_HOLD_RMB then o_hold_rmb o
  else 0.

(** The port function of a held action. *)
Definition held_out (a : Z) : bool -> port_call :=
  if a =? ACTION_HOLD_W then SendKey KEY_W
  else if a =? ACTION_HOLD_S then SendKey KEY_S
  else if a =? ACTION_HOLD_LMB then SendMouseBtn 0
  else SendMouseBtn 1.

Definition press (a : Z) : event := Ev a (held_out a true).
Definition release (a : Z) : event := Ev a (held_out a false).

Definition is_press (e : event) : bool :=
  match ev_call e with
  | SendKey _ down | SendMouseBtn _ down => down
  | MoveMouse _ _ => false
  end.

Definition is_release (e : event) : bool :=
  match ev_call e with
  | SendKey _ down | SendMouseBtn _ down => negb down
  | MoveMouse _ _ => false
  end.

(** The events of one action, in order. *)
Definition events_of (a : Z) (tr : list event) : list event :=
  List.filter (fun e => ev_action e =? a) tr.

(** Press/release pairing of a sequence of events of one action, from the
    state [down]: a press only when up, a release only when down.  The
    result is the state at the end, or [None] when an event has no matching
    opposite event before it. *)
Fixpoint pairing (down : bool) (tr : list event) : option bool :=
  match tr with
  | [] => Some down
  | e :: tr' =>
      if is_press e then (if down then None else pairing true tr')
      else if is_release e then (if down then pairing false tr' else None)
      else pairing down tr'
  end.

(** The events of action [a] in [tr] alternate press and release, starting
    from the up state. *)
Definition well_paired (a : Z) (tr : list event) : bool :=
  match pairing false (events_of a tr) with
  | Some _ => true
  | None => false
  end.

(** The events of the polling loop alone. *)
Definition loop_events (os : list observation) (l : locals) : list event :=
  snd (fst (worker_loop os l)).

Definition loop_locals (os : list observation) (l : locals) : locals :=
  fst (fst (worker_loop os l)).

(** The click of the repeated-click action at the saved position. *)
Definition click (x y : Z) : list event :=
  [Ev ACTION_SPAM_LMB (MoveMouse x y);
   Ev ACTION_SPAM_LMB (SendMouseBtn 0 true);
   Ev ACTION_SPAM_LMB (SendMouseBtn 0 false)].

(** The times [now_ms()] of the passes of the loop that emit a click. *)
Fixpoint click_times (os : list observation) (l : locals) : list Z :=
  match os with
  | [] => []
  | o :: os' =>
      if truthy (o_running o) then
        let '(l1, e1) := worker_pass o l in
        match events_of ACTION_SPAM_LMB e1 with
        | [] => click_times os' l1
        | _ => o_now o :: click_times os' l1
        end
      else []
  end.

(** Consecutive elements are at least [d] apart, the first one at least [d]
    after [t0]. *)
Fixpoint spaced (d : Z) (t0 : Z) (ts : list Z) : Prop :=
  match ts with
  | [] => True
  | t :: ts' => t0 + d <= t /\ spaced d t ts'
  end.

(** The clock of the passes does not run backwards from [t0] and fits a
    [uint64_t]. *)
Fixpoint clock_monotone (t0 : Z) (os : list observation) : Prop :=
  match os with
  | [] => True
  | o :: os' => t0 <= o_now o < UINT64_MOD /\ clock_monotone (o_now o) os'
  end.

(** An observation that makes the loop leave its cycle. *)
Definition stops (o : observation) : Prop := truthy (o_running o) = false.

(** What a pass does for one held action: only the block of that action
    counts. *)
Definition held_step (a : Z) (o : observation) (l : locals) : Z * list event :=
  if truthy (o_suspended o) then release_if_down a (held_out a) (is_down a l)
  else hold_block a (held_out a) (desired a o) (is_down a l).

(** The passes of [os] all run, are not suspended, and read the flag of the
    action [a] as set. *)
Definition steady_on (a : Z) (os : list observation) : Prop :=
  Forall (fun o => truthy (o_running o) = true
                   /\ truthy (o_suspended o) = false
                   /\ truthy (desired a o) = true) os.

(** The passes of [os] all run and all read the suspend flag as set. *)
Definition suspended_run (os : list observation) : Prop :=
  Forall (fun o => truthy (o_running o) = true
                   /\ truthy (o_suspended o) = true) os.

(** The releases of a suspended pass: one for each output that is down. *)
Definition suspend_releases (l : locals) : list event :=
  (if truthy (w_is_down l) then [release ACTION_HOLD_W] else [])
  ++ (if truthy (s_is_down l) then [release ACTION_HOLD_S] else [])
  ++ (if truthy (lmb_is_down l) then [release ACTION_HOLD_LMB] else [])
  ++ (if truthy (rmb_is_down l) then [release ACTION_HOLD_RMB] else []).

(** Every output is recorded up. *)
Definition all_up (l : locals) : Prop :=
  w_is_down l = 0 /\ s_is_down l = 0 /\ lmb_is_down l = 0 /\ rmb_is_down l = 0.

(** The five actions whose blocks emit events. *)
Definition is_action (a : Z) : Prop :=
  a = ACTION_SPAM_LMB \/ In a held_actions.

End Trace.

(** ** Sample runs and files *)

Module Samples.
Import Engine Worker Config.

(** A run in which W is held, then the stop is read while suspended. *)
Definition shutdown_sample : list observation :=
  [Observation 1 0 1 0 0 0 0 100 0 0; Observation 0 1 1 0 0 0 0 101 0 0].

(** All five flags on, then the stop. *)
Definition all_on : globals :=
  {| g_running := 0; g_suspended := 0;
     g_spam_left := 1; g_hold_w := 1; g_hold_s := 1;
     g_hold_lmb := 1; g_hold_rmb := 1;
     g_overlay_hidden := 0; g_saved_x := 10; g_saved_y := 20 |}.

(** A pass that reads the flag of W as set. *)
Definition w_on : observation := Observation 1 0 1 0 0 0 0 0 0 0.

(** A suspended pass that still reads the flags of W, of the right button
    and of the click as set. *)
Definition suspended_obs : observation := Observation 1 1 1 0 0 1 1 500 0 0.

(** A pass at time [now] that reads the click as on, with the saved
    position (100, 200). *)
Definition spam_on (now : Z) : observation := Observation 1 0 0 0 0 0 1 now 100 200.

(** A configuration file of one line: a ['#'], 254 spaces, and then the
    text [Hold W=F2]; 265 bytes with its newline. *)
Definition long_comment : list ascii :=
  "#"%char :: replicate 254 " "%char ++ lit "Hold W=F2" ++ [NL].

End Samples.

(** ** Small string helpers *)

Module Strings.

(** [tolower((unsigned char)c)] in the C locale. *)
Definition tolower (c : ascii) : ascii :=
  let n := nat_of_ascii c in
  if (65 <=? n)%nat && (n <=? 90)%nat then ascii_of_nat (n - 65 + 97) else c.

(** The inner [while] of [strcasestr_simple], from the positions [h] and
    [n]: whether it stops with [n] at the end of the needle. *)
Fixpoint needle_matches (h n : list ascii) {struct n} : bool :=
  match n with
  | [] => true
  | cn :: n' =>
      match h with
      | [] => false
      | ch :: h' =>
          if Ascii.eqb (tolower ch) (tolower cn) then needle_matches h' n'
          else false
      end
  end.

(** The [for] loop of [strcasestr_simple] from the position [p]. *)
Fixpoint strcasestr_from (p needle : list ascii) : Z :=
  match p with
  | [] => 0
  | _ :: p' =>
      if needle_matches p needle then 1 else strcasestr_from p' needle
  end.

(** [strcasestr_simple]; a string is the list of its characters before the
    terminating NUL, [None] is the null pointer. *)
Definition strcasestr_simple (haystack needle : option (list ascii)) : Z :=
  match haystack, needle with
  | Some h, Some (c :: n) => strcasestr_from h (c :: n)
  | _, _ => 0
  end.

End Strings.

(** ** The clock and the sleep *)

Module Timing.

(** [msleep] on Linux: the [timespec] passed to [nanosleep], or [None]
    when the function returns at once.  [/] and [%] of C truncate. *)
Definition msleep (ms : Z) : option (Z * Z) :=
  if ms <=? 0 then None
  else Some (Z.quot ms 1000, Z.rem ms 1000 * 1000000).

(** [now_ms] on Linux, from the [timespec] that [clock_gettime] fills in;
    the casts and the arithmetic are those of [uint64_t]. *)
Definition now_ms (tv_sec tv_nsec : Z) : Z :=
  ((tv_sec mod 2 ^ 64) * 1000 mod 2 ^ 64
   + (tv_nsec mod 2 ^ 64) / 1000000) mod 2 ^ 64.

End Timing.

(** ** The key press handler of [main] *)

Module Dispatch.
Import Engine Config.





Section Platform.

Variable XK : fkey -> Z.


End Platform.

End Dispatch.

(** ** The text of the overlay *)

Module Overlay.
Import Engine Config.

(** [strncat(dest, src, n)] *)
Definition strncat (dest src : list ascii) (n : nat) : list ascii :=
  dest ++ take n src.

Section Platform.

Variable XK : fkey -> Z.

(** [g_action_keys[i]] *)
Definition action_key (keys : list Z) (i : Z) : Z := nth (Z.to_nat i) keys 0.

(** The text [snprintf] formats in [build_overlay_text]. *)
Definition overlay_format (keys : list Z) : list ascii :=
  key_name_from_code XK (action_key keys ACTION_SPAM_LMB)
  ++ lit " spam LMB saved position | "
  ++ key_name_from_code XK (action_key keys ACTION_HOLD_W) ++ lit " hold W | "
  ++ key_name_from_code XK (action_key keys ACTION_HOLD_S) ++ lit " hold S | "
  ++ key_name_from_code XK (action_key keys ACTION_HOLD_RMB) ++ lit " hold RMB | "
  ++ key_name_from_code XK (action_key keys ACTION_HOLD_LMB) ++ lit " hold LMB | "
  ++ key_name_from_code XK (action_key keys ACTION_SUSPEND) ++ lit " stop | "
  ++ key_name_from_code XK (action_key keys ACTION_EXIT) ++ lit " exit | "
  ++ key_name_from_code XK (XK F11) ++ lit " hide HUD".

(** [build_overlay_text(buf, buf_size)]: the string in [buf] afterwards;
    [old] is the string before. *)
Definition build_overlay_text (keys : list Z) (buf_size : nat)
    (old : list ascii) : list ascii :=
  match buf_size with
  | O => old
  | S room => take room (overlay_format keys)
  end.

(** The string built in [active] by the [strcat] calls. *)
Definition active_text (g : globals) : list ascii :=
  (if truthy (atomic_load G_spam_left g) then lit " Spam" else [])
  ++ (if truthy (atomic_load G_hold_w g) then lit " W" else [])
  ++ (if truthy (atomic_load G_hold_s g) then lit " S" else [])
  ++ (if truthy (atomic_load G_hold_rmb g) then lit " RMB" else [])
  ++ (if truthy (atomic_load G_hold_lmb g) then lit " LMB" else [])
  ++ (if truthy (atomic_load G_suspended g) then lit " [SUSP]" else []).

(** The line drawn in the overlay ([overlay_draw] on X11, the paint
    handler on Windows): [buf] has 512 bytes. *)
Definition status_line (keys : list Z) (g : globals) : list ascii :=
  let buf := build_overlay_text keys 512 [] in
  let active := active_text g in
  match active with
  | [] => buf
  | _ =>
      let buf := strncat buf (lit " | Active:") (512 - length buf - 1) in
      strncat buf active (512 - length buf - 1)
  end.

End Platform.

End Overlay.

(** ** The physical state of the outputs *)

Module Wire.
Import Worker.

(** The four outputs the worker drives. *)
Inductive output : Set := OUT_W | OUT_S | OUT_LEFT | OUT_RIGHT.

Definition output_eqb (a b : output) : bool :=
  match a, b with
  | OUT_W, OUT_W | OUT_S, OUT_S | OUT_LEFT, OUT_LEFT | OUT_RIGHT, OUT_RIGHT => true
  | _, _ => false
  end.

(** The output a port call acts on and the state it puts it in; button 0
    is the left button, any other the right one. *)
Definition output_of (c : port_call) : option (output * bool) :=
  match c with
  | SendKey KEY_W down => Some (OUT_W, down)
  | SendKey KEY_S down => Some (OUT_S, down)
  | SendMouseBtn button down =>
      Some (if button =? 0 then OUT_LEFT else OUT_RIGHT, down)
  | MoveMouse _ _ => None
  end.

(** Whether the output [out] is down once the platform has carried out the
    events [tr], when it was [down] before. *)
Definition held_after (out : output) (tr : list event) (down : bool) : bool :=
  fold_left
    (fun st e =>
       match output_of (ev_call e) with
       | Some (o, d) => if output_eqb o out then d else st
       | None => st
       end)
    tr down.



End Wire.

(** ** The search of the game window *)

Module Target.
Import Config Strings.

(** [process_matches_foxhole(pid)].  [exe] is the path [readlink] reads
    from [/proc/<pid>/exe] and [cmdline] the content of
    [/proc/<pid>/cmdline], each [None] when it cannot be read; [pathbuf] has
    512 bytes, so at most 511 bytes of either are looked at, up to the
    first NUL. *)
Definition process_matches_foxhole (pid : Z) (exe cmdline : option (list ascii)) : Z :=
  if pid =? 0 then 0
  else
    let in_exe :=
      match exe with
      | Some path =>
          match take 511 path with
          | [] => false
          | buf => truthy (strcasestr_simple (Some (c_str buf)) (Some (lit "foxhole")))
          end
      | None => false
      end in
    if in_exe then 1
    else
      let in_cmdline :=
        match cmdline with
        | Some bytes =>
            match take 511 bytes with
            | [] => false
            | buf => truthy (strcasestr_simple (Some (c_str buf)) (Some (lit "foxhole")))
            end
        | None => false
        end in
      if in_cmdline then 1 else 0.

(** A window of the X server with what the search asks about it: its id,
    the process id in its [_NET_WM_PID] property ([None] when the property
    cannot be read as one 32-bit item), and its children as [XQueryTree]
    lists them (none when the query fails). *)
#[warnings="-register-all"]
Inductive window : Set :=
| Window (id : Z) (pid : option Z) (children : list window).

Definition window_id (w : window) : Z := match w with Window id _ _ => id end.
Definition window_pid (w : window) : option Z := match w with Window _ pid _ => pid end.
Definition window_children (w : window) : list window :=
  match w with Window _ _ children => children end.

(** The windows of a tree, the root first. *)
Fixpoint nodes (w : window) : list window :=
  match w with
  | Window _ _ children =>
      w :: (fix go (l : list window) : list window :=
              match l with
              | [] => []
              | k :: l' => nodes k ++ go l'
              end) children
  end.

(** The first 511 bytes of [content], up to the first NUL, contain
    "foxhole", the case of the letters set aside. *)
Definition contains_foxhole (content : option (list ascii)) : Prop :=
  exists bytes pre post,
    content = Some bytes
    /\ map tolower (c_str (take 511 bytes)) = pre ++ lit "foxhole" ++ post.

Definition STACK_SIZE : nat := 1024.

Section Processes.

(** The files of [/proc] for each process id. *)
Variable exe_of : Z -> option (list ascii).
Variable cmdline_of : Z -> option (list ascii).

(** The test of one window in the loop of [find_target_window]. *)
Definition window_matches (w : window) : bool :=
  match window_pid w with
  | Some pid => truthy (process_matches_foxhole pid (exe_of pid) (cmdline_of pid))
  | None => false
  end.

(** The [while (stack_top > 0)] loop; [stack] is the used part of the
    array, its top first.  The children are pushed in order while the
    array has room, so the last one pushed is on top. *)
Fixpoint find_loop (fuel : nat) (stack : list window) : Z :=
  match fuel with
  | O => 0
  | S fuel' =>
      match stack with
      | [] => 0
      | w :: rest =>
          if window_matches w then window_id w
          else
            find_loop fuel'
              (rev (take (STACK_SIZE - length rest) (window_children w)) ++ rest)
      end
  end.

(** [find_target_window] from the root window; [pid_atom] tells whether
    the atom [_NET_WM_PID] exists.  Every turn of the loop takes one
    window of the tree off the stack, so a fuel of the number of windows
    is enough. *)
Definition find_target_window (pid_atom : bool) (root : window) : Z :=
  if pid_atom then find_loop (length (nodes root)) [root] else 0.

End Processes.

End Target.

(** ** Known key codes *)

Module Tables.
Import Config.

Definition all_fkeys : list fkey := [F2; F3; F4; F6; F7; F8; F9; F10; F11].

(** Whether [code] is the code of one of the keys [key_name_from_code]
    names. *)
Definition code_known (XK : fkey -> Z) (code : Z) : bool :=
  existsb (fun k => code =? XK k) all_fkeys.

(** A line of the configuration file, without its newline, that binds the
    action called [name] to the key [k]. *)
Definition binding_line (name : list ascii) (k : fkey) : list ascii :=
  name ++ ["="%char] ++ fname k.

(** What [sscanf] finds in a line. *)
Definition parsed (ln : list ascii) : Z * list ascii * list ascii :=
  sscanf_key_val (c_str (ln ++ [NL])).

End Tables.

(** ** Reading the globals *)

Module Flags.
Import Engine.

(** The flag an action index toggles, for the five actions that have
    one. *)
Definition flag_of_action (action : Z) : option gvar :=
  if action =? ACTION_SPAM_LMB then Some G_spam_left
  else if action =? ACTION_HOLD_W then Some G_hold_w
  else if action =? ACTION_HOLD_S then Some G_hold_s
  else if action =? ACTION_HOLD_RMB then Some G_hold_rmb
  else if action =? ACTION_HOLD_LMB then Some G_hold_lmb
  else None.

Definition is_bit (v : Z) : Prop := v = 0 \/ v = 1.

(** The running flag, the suspend flag and the five action flags hold 0
    or 1. *)
Definition boolean_flags (g : globals) : Prop :=
  is_bit (g_running g) /\ is_bit (g_suspended g)
  /\ is_bit (g_spam_left g) /\ is_bit (g_hold_w g) /\ is_bit (g_hold_s g)
  /\ is_bit (g_hold_lmb g) /\ is_bit (g_hold_rmb g).


End Flags.

Import Engine Worker System Trace Config Samples.
Import Strings Timing Dispatch Overlay Wire Flags Tables Target.

(** * Properties *)

(** ** The hotkey entry point *)

(** C10: [handle_action] with an index that is no action (negative, or
    [ACTION_COUNT] and beyond) returns with the globals as they were and
    without any effect: no store, no cursor query, no console line, no
    redraw.  The whole program is as before the call: flags, saved
    position, the worker's locals and the events emitted. *)
Theorem handle_action_unknown_noop (action : Z) (c : cursor) (s : system) :
  action < 0 \/ ACTION_COUNT <= action ->
  handle_action action c (sys_globals s) = (tt, sys_globals s, [])
  /\ run_step s (Hotkey action c) = s.
Proof.
  intros Hout.
  assert (Hnoop : handle_action action c (sys_globals s) = (tt, sys_globals s, [])).
  { unfold handle_action.
    repeat match goal with
    | |- context [action =? ?k] =>
        let E := fresh "E" in
        destruct (Z.eqb_spec action k) as [E|E];
        [ exfalso; revert E Hout;
          unfold ACTION_SPAM_LMB, ACTION_HOLD_W, ACTION_HOLD_S, ACTION_HOLD_RMB,
            ACTION_HOLD_LMB, ACTION_SUSPEND, ACTION_EXIT, ACTION_COUNT; lia | ]
    end.
    reflexivity. }
  split; [assumption|].
  unfold run_step. rewrite Hnoop, app_nil_r. destruct s; reflexivity.
Qed.

(** The indices -1 and [ACTION_COUNT]. *)
Lemma handle_action_unknown_noop_witness :
  run_step initial_system (Hotkey (-1) (Cursor 3 4)) = initial_system
  /\ run_step initial_system (Hotkey ACTION_COUNT (Cursor 3 4)) = initial_system.
Proof.
  split.
  - apply (handle_action_unknown_noop (-1)). left. lia.
  - apply (handle_action_unknown_noop ACTION_COUNT). right. lia.
Defined.

(** ** The end of the worker thread *)

Lemma worker_loop_exits (os : list observation) (l : locals) :
  Exists stops os -> snd (worker_loop os l) = true.
Proof.
  intros Hex. revert l.
  induction os as [|o os IH]; intros l.
  - inversion Hex.
  - simpl. destruct (truthy (o_running o)) eqn:Hrun.
    + destruct (worker_pass o l) as [l1 e1].
      assert (Hrest : Exists stops os).
      { inversion Hex as [? ? Hst|]; subst; [|assumption].
        unfold stops in Hst. congruence. }
      specialize (IH Hrest l1).
      destruct (worker_loop os l1) as [[l2 e2] ex]. simpl in *. assumption.
    + reflexivity.
Qed.

Lemma worker_loop_ignores_rest (os more : list observation) (l : locals) :
  snd (worker_loop os l) = true ->
  worker_loop (os ++ more) l = worker_loop os l.
Proof.
  revert l. induction os as [|o os IH]; intros l Hex.
  - simpl in Hex. discriminate.
  - simpl in *. destruct (truthy (o_running o)); [|reflexivity].
    destruct (worker_pass o l) as [l1 e1].
    rewrite IH; [reflexivity|].
    destruct (worker_loop os l1) as [[l2 e2] ex]. assumption.
Qed.

Lemma set_all_up_events (g : globals) :
  snd (set_all_up g)
  = [release ACTION_HOLD_W; release ACTION_HOLD_S;
     release ACTION_HOLD_LMB; release ACTION_HOLD_RMB].
Proof. reflexivity. Qed.

Lemma held_actions_cases (a : Z) :
  In a held_actions ->
  a = ACTION_HOLD_W \/ a = ACTION_HOLD_S \/ a = ACTION_HOLD_LMB \/ a = ACTION_HOLD_RMB.
Proof. simpl. intuition. Qed.

(** C1: once the loop has read [g_running] as zero it leaves its cycle and
    the thread returns after one pass of [set_all_up]: the events of the
    thread are those of the loop followed by those of the pass; in the pass
    every held action that is down at the exit of the loop gets exactly one
    release; the pass has no other kind of event; it does not depend on the
    suspend flag (neither the globals nor the observations are constrained);
    and whatever could be observed later adds no event. *)
Theorem shutdown_release_pass (os : list observation) (g : globals) :
  Exists stops os ->
  exists l tr g',
    worker_loop os initial_locals = (l, tr, true)
    /\ worker_thread os g = Some (g', tr ++ snd (set_all_up g))
    /\ (forall a, In a held_actions -> truthy (is_down a l) = true ->
          events_of a (snd (set_all_up g)) = [release a])
    /\ (forall e, In e (snd (set_all_up g)) -> is_release e = true)
    /\ (forall more, worker_thread (os ++ more) g = worker_thread os g).
Proof.
  intros Hex.
  pose proof (worker_loop_exits os initial_locals Hex) as Hexit.
  destruct (worker_loop os initial_locals) as [[l tr] ex] eqn:Hloop.
  simpl in Hexit. subst ex.
  exists l, tr, (fst (set_all_up g)).
  split; [reflexivity|].
  split; [unfold worker_thread; rewrite Hloop; reflexivity|].
  split.
  { intros a Ha _. apply held_actions_cases in Ha.
    destruct Ha as [ -> | [ -> | [ -> | -> ] ] ]; reflexivity. }
  split.
  { intros e He. rewrite set_all_up_events in He. simpl in He.
    destruct He as [ <- | [ <- | [ <- | [ <- | He ] ] ] ]; try reflexivity.
    destruct He. }
  intros more. unfold worker_thread.
  rewrite worker_loop_ignores_rest; [reflexivity|].
  rewrite Hloop. reflexivity.
Qed.

(** W is held, then the stop is read while the program is suspended. *)
Lemma shutdown_release_pass_witness :
  exists l tr g',
    worker_loop shutdown_sample initial_locals = (l, tr, true)
    /\ worker_thread shutdown_sample (atomic_store G_suspended 1 initial_globals)
       = Some (g', tr ++ snd (set_all_up (atomic_store G_suspended 1 initial_globals)))
    /\ (forall a, In a held_actions -> truthy (is_down a l) = true ->
          events_of a (snd (set_all_up (atomic_store G_suspended 1 initial_globals)))
          = [release a])
    /\ (forall e,
          In e (snd (set_all_up (atomic_store G_suspended 1 initial_globals))) ->
          is_release e = true)
    /\ (forall more,
          worker_thread (shutdown_sample ++ more)
            (atomic_store G_suspended 1 initial_globals)
          = worker_thread shutdown_sample
              (atomic_store G_suspended 1 initial_globals)).
Proof.
  apply (shutdown_release_pass shutdown_sample
           (atomic_store G_suspended 1 initial_globals)).
  unfold shutdown_sample.
  apply Exists_cons_tl, Exists_cons_hd. reflexivity.
Defined.

(** C9: when the thread returns, [set_all_up] has stored zero in the five
    action flags, whatever they were; the other globals are as before. *)
Theorem shutdown_clears_flags (os : list observation) (g : globals) :
  Exists stops os ->
  exists g' tr,
    worker_thread os g = Some (g', tr)
    /\ g_spam_left g' = 0 /\ g_hold_w g' = 0 /\ g_hold_s g' = 0
    /\ g_hold_lmb g' = 0 /\ g_hold_rmb g' = 0
    /\ g_running g' = g_running g /\ g_suspended g' = g_suspended g
    /\ g_overlay_hidden g' = g_overlay_hidden g
    /\ g_saved_x g' = g_saved_x g /\ g_saved_y g' = g_saved_y g.
Proof.
  intros Hex.
  pose proof (worker_loop_exits os initial_locals Hex) as Hexit.
  unfold worker_thread.
  destruct (worker_loop os initial_locals) as [[l tr] ex].
  simpl in Hexit. subst ex.
  eexists _, _. split; [reflexivity|].
  simpl. repeat split.
Qed.

(** The stop is read with the five flags set. *)
Lemma shutdown_clears_flags_witness :
  exists g' tr,
    worker_thread [observe all_on 50] all_on = Some (g', tr)
    /\ g_spam_left g' = 0 /\ g_hold_w g' = 0 /\ g_hold_s g' = 0
    /\ g_hold_lmb g' = 0 /\ g_hold_rmb g' = 0
    /\ g_running g' = g_running all_on /\ g_suspended g' = g_suspended all_on
    /\ g_overlay_hidden g' = g_overlay_hidden all_on
    /\ g_saved_x g' = g_saved_x all_on /\ g_saved_y g' = g_saved_y all_on.
Proof.
  apply (shutdown_clears_flags [observe all_on 50] all_on).
  apply Exists_cons_hd. reflexivity.
Defined.

(** ** One pass of the loop, action by action *)

Lemma truthy_false_zero (v : Z) : truthy v = false -> v = 0.
Proof. unfold truthy. destruct (Z.eqb_spec v 0); [auto|discriminate]. Qed.

Lemma events_of_app (a : Z) (t1 t2 : list event) :
  events_of a (t1 ++ t2) = events_of a t1 ++ events_of a t2.
Proof. apply List.filter_app. Qed.

Lemma events_of_hold_block (a b : Z) out flag d :
  events_of a (snd (hold_block b out flag d))
  = if b =? a then snd (hold_block b out flag d) else [].
Proof.
  unfold hold_block, events_of.
  destruct (truthy flag), (truthy d); simpl; destruct (b =? a); reflexivity.
Qed.

Lemma events_of_release_if_down (a b : Z) out d :
  events_of a (snd (release_if_down b out d))
  = if b =? a then snd (release_if_down b out d) else [].
Proof.
  unfold release_if_down, events_of.
  destruct (truthy d); simpl; destruct (b =? a); reflexivity.
Qed.

Lemma events_of_spam_block (a : Z) o lc :
  events_of a (snd (spam_block o lc))
  = if ACTION_SPAM_LMB =? a then snd (spam_block o lc) else [].
Proof.
  unfold spam_block, events_of.
  destruct (truthy (o_spam_left o));
    [destruct (30 <=? (o_now o - lc) mod UINT64_MOD)|];
    destruct (ACTION_SPAM_LMB =? a) eqn:E;
    cbn [snd List.filter ev_action]; rewrite ?E; reflexivity.
Qed.

(** The events and the locals of a pass, block by block. *)
Lemma worker_pass_events (o : observation) (l : locals) :
  snd (worker_pass o l)
  = if truthy (o_suspended o) then
      snd (release_if_down ACTION_HOLD_W (SendKey KEY_W) (w_is_down l))
      ++ snd (release_if_down ACTION_HOLD_S (SendKey KEY_S) (s_is_down l))
      ++ snd (release_if_down ACTION_HOLD_LMB (SendMouseBtn 0) (lmb_is_down l))
      ++ snd (release_if_down ACTION_HOLD_RMB (SendMouseBtn 1) (rmb_is_down l))
    else
      snd (hold_block ACTION_HOLD_W (SendKey KEY_W) (o_hold_w o) (w_is_down l))
      ++ snd (hold_block ACTION_HOLD_S (SendKey KEY_S) (o_hold_s o) (s_is_down l))
      ++ snd (hold_block ACTION_HOLD_LMB (SendMouseBtn 0) (o_hold_lmb o) (lmb_is_down l))
      ++ snd (hold_block ACTION_HOLD_RMB (SendMouseBtn 1) (o_hold_rmb o) (rmb_is_down l))
      ++ snd (spam_block o (last_click l)).
Proof.
  unfold worker_pass. destruct (truthy (o_suspended o)).
  - repeat match goal with |- context [release_if_down ?a ?c ?d] =>
      destruct (release_if_down a c d) end. reflexivity.
  - repeat match goal with |- context [hold_block ?a ?c ?f ?d] =>
      destruct (hold_block a c f d) end.
    destruct (spam_block o (last_click l)). reflexivity.
Qed.

Lemma worker_pass_locals (o : observation) (l : locals) :
  fst (worker_pass o l)
  = if truthy (o_suspended o) then
      Locals
        (fst (release_if_down ACTION_HOLD_W (SendKey KEY_W) (w_is_down l)))
        (fst (release_if_down ACTION_HOLD_S (SendKey KEY_S) (s_is_down l)))
        (fst (release_if_down ACTION_HOLD_LMB (SendMouseBtn 0) (lmb_is_down l)))
        (fst (release_if_down ACTION_HOLD_RMB (SendMouseBtn 1) (rmb_is_down l)))
        (last_click l)
    else
      Locals
        (fst (hold_block ACTION_HOLD_W (SendKey KEY_W) (o_hold_w o) (w_is_down l)))
        (fst (hold_block ACTION_HOLD_S (SendKey KEY_S) (o_hold_s o) (s_is_down l)))
        (fst (hold_block ACTION_HOLD_LMB (SendMouseBtn 0) (o_hold_lmb o) (lmb_is_down l)))
        (fst (hold_block ACTION_HOLD_RMB (SendMouseBtn 1) (o_hold_rmb o) (rmb_is_down l)))
        (fst (spam_block o (last_click l))).
Proof.
  unfold worker_pass. destruct (truthy (o_suspended o)).
  - repeat match goal with |- context [release_if_down ?a ?c ?d] =>
      destruct (release_if_down a c d) end. reflexivity.
  - repeat match goal with |- context [hold_block ?a ?c ?f ?d] =>
      destruct (hold_block a c f d) end.
    destruct (spam_block o (last_click l)). reflexivity.
Qed.

Ltac held_cases H :=
  apply held_actions_cases in H;
  destruct H as [ -> | [ -> | [ -> | -> ] ] ].

Lemma worker_pass_held_events (a : Z) (o : observation) (l : locals) :
  In a held_actions ->
  events_of a (snd (worker_pass o l)) = snd (held_step a o l).
Proof.
  intros Ha. rewrite worker_pass_events. unfold held_step.
  destruct (truthy (o_suspended o));
    rewrite ?events_of_app, ?events_of_hold_block, ?events_of_release_if_down,
      ?events_of_spam_block;
    held_cases Ha; simpl; rewrite ?app_nil_r; reflexivity.
Qed.

Lemma worker_pass_held_locals (a : Z) (o : observation) (l : locals) :
  In a held_actions ->
  is_down a (fst (worker_pass o l)) = fst (held_step a o l).
Proof.
  intros Ha. rewrite worker_pass_locals. unfold held_step.
  destruct (truthy (o_suspended o)); held_cases Ha; reflexivity.
Qed.

Lemma worker_pass_spam_events (o : observation) (l : locals) :
  events_of ACTION_SPAM_LMB (snd (worker_pass o l))
  = if truthy (o_suspended o) then [] else snd (spam_block o (last_click l)).
Proof.
  rewrite worker_pass_events.
  destruct (truthy (o_suspended o));
    rewrite ?events_of_app, ?events_of_hold_block, ?events_of_release_if_down,
      ?events_of_spam_block; reflexivity.
Qed.

Lemma worker_pass_last_click (o : observation) (l : locals) :
  last_click (fst (worker_pass o l))
  = if truthy (o_suspended o) then last_click l
    else fst (spam_block o (last_click l)).
Proof. rewrite worker_pass_locals. destruct (truthy (o_suspended o)); reflexivity. Qed.

(** The loop, one pass at a time. *)
Lemma loop_events_cons (o : observation) (os : list observation) (l : locals) :
  truthy (o_running o) = true ->
  loop_events (o :: os) l
  = snd (worker_pass o l) ++ loop_events os (fst (worker_pass o l)).
Proof.
  intros Hrun. unfold loop_events. simpl. rewrite Hrun.
  destruct (worker_pass o l) as [l1 e1]. simpl.
  destruct (worker_loop os l1) as [[l2 e2] ex]. reflexivity.
Qed.

Lemma loop_locals_cons (o : observation) (os : list observation) (l : locals) :
  truthy (o_running o) = true ->
  loop_locals (o :: os) l = loop_locals os (fst (worker_pass o l)).
Proof.
  intros Hrun. unfold loop_locals. simpl. rewrite Hrun.
  destruct (worker_pass o l) as [l1 e1]. simpl.
  destruct (worker_loop os l1) as [[l2 e2] ex]. reflexivity.
Qed.

Lemma loop_events_stop (o : observation) (os : list observation) (l : locals) :
  truthy (o_running o) = false -> loop_events (o :: os) l = [].
Proof. intros Hrun. unfold loop_events. simpl. rewrite Hrun. reflexivity. Qed.

Lemma loop_locals_stop (o : observation) (os : list observation) (l : locals) :
  truthy (o_running o) = false -> loop_locals (o :: os) l = l.
Proof. intros Hrun. unfold loop_locals. simpl. rewrite Hrun. reflexivity. Qed.

(** ** Edge-triggered presses and releases *)

Lemma steady_on_no_event (a : Z) (os : list observation) (l : locals) :
  In a held_actions -> steady_on a os -> truthy (is_down a l) = true ->
  events_of a (loop_events os l) = [].
Proof.
  intros Ha Hos. revert l.
  induction Hos as [|o os (Hrun & Hsus & Hdes) _ IH]; intros l Hdown.
  - reflexivity.
  - rewrite loop_events_cons, events_of_app by assumption.
    rewrite worker_pass_held_events by assumption.
    rewrite IH.
    + unfold held_step, hold_block. rewrite Hsus, Hdes, Hdown. reflexivity.
    + rewrite worker_pass_held_locals by assumption.
      unfold held_step, hold_block. rewrite Hsus, Hdes, Hdown. assumption.
Qed.

(** C2: in a pass that is not suspended, for each held action: flag set
    and output up, one press and the output recorded down; flag clear and
    output down, one release and the output recorded up; flag and output
    agreeing, no event and the record unchanged.  So over any number of
    passes (at least one) that read the flag as set, starting with the
    output up, the action emits one press in all. *)
Theorem hold_edge_triggered :
  (forall (a : Z) (o : observation) (l : locals),
     In a held_actions -> truthy (o_suspended o) = false ->
     let l' := fst (worker_pass o l) in
     let tr := events_of a (snd (worker_pass o l)) in
     (truthy (desired a o) = true -> truthy (is_down a l) = false ->
        tr = [press a] /\ is_down a l' = 1)
     /\ (truthy (desired a o) = false -> truthy (is_down a l) = true ->
        tr = [release a] /\ is_down a l' = 0)
     /\ (truthy (desired a o) = truthy (is_down a l) ->
        tr = [] /\ is_down a l' = is_down a l))
  /\ (forall (a : Z) (os : list observation) (l : locals),
        In a held_actions -> os <> [] -> steady_on a os ->
        truthy (is_down a l) = false ->
        events_of a (loop_events os l) = [press a]).
Proof.
  split.
  - intros a o l Ha Hsus l' tr. subst l' tr.
    rewrite worker_pass_held_events, worker_pass_held_locals by assumption.
    unfold held_step, hold_block. rewrite Hsus.
    split; [|split].
    + intros Hd Hp. rewrite Hd, Hp. split; reflexivity.
    + intros Hd Hp. rewrite Hd, Hp. split; reflexivity.
    + intros Heq. rewrite Heq.
      destruct (truthy (is_down a l)); split; reflexivity.
  - intros a os l Ha Hne Hos Hup.
    destruct Hos as [|o os (Hrun & Hsus & Hdes) Hos]; [congruence|].
    rewrite loop_events_cons, events_of_app by assumption.
    rewrite worker_pass_held_events by assumption.
    rewrite steady_on_no_event; try assumption.
    + unfold held_step, hold_block. rewrite Hsus, Hdes, Hup. reflexivity.
    + rewrite worker_pass_held_locals by assumption.
      unfold held_step, hold_block. rewrite Hsus, Hdes, Hup. reflexivity.
Qed.

(** Three passes read the flag of W as set: one press. *)
Lemma hold_edge_triggered_witness :
  events_of ACTION_HOLD_W (loop_events [w_on; w_on; w_on] initial_locals)
  = [press ACTION_HOLD_W].
Proof.
  apply (proj2 hold_edge_triggered ACTION_HOLD_W [w_on; w_on; w_on] initial_locals).
  - left. reflexivity.
  - discriminate.
  - repeat constructor.
  - reflexivity.
Defined.

(** ** Suspension *)

Lemma suspended_pass (o : observation) (l : locals) :
  truthy (o_suspended o) = true ->
  snd (worker_pass o l) = suspend_releases l
  /\ all_up (fst (worker_pass o l))
  /\ last_click (fst (worker_pass o l)) = last_click l.
Proof.
  intros Hsus. rewrite worker_pass_events, worker_pass_locals, Hsus.
  unfold suspend_releases, release_if_down, all_up.
  destruct (truthy (w_is_down l)) eqn:Hw, (truthy (s_is_down l)) eqn:Hs,
    (truthy (lmb_is_down l)) eqn:Hl, (truthy (rmb_is_down l)) eqn:Hr;
    cbn [fst snd w_is_down s_is_down lmb_is_down rmb_is_down last_click];
    repeat split; auto using truthy_false_zero.
Qed.

Lemma suspended_idle (os : list observation) (l : locals) :
  suspended_run os -> all_up l ->
  loop_events os l = [] /\ loop_locals os l = l.
Proof.
  intros Hos. revert l.
  induction Hos as [|o os (Hrun & Hsus) _ IH]; intros l Hup.
  - split; reflexivity.
  - rewrite loop_events_cons, loop_locals_cons by assumption.
    destruct (suspended_pass o l Hsus) as (Hev & Hup' & Hlc).
    assert (Hsame : fst (worker_pass o l) = l).
    { destruct Hup as (Hw & Hs & Hl & Hr), Hup' as (Hw' & Hs' & Hl' & Hr').
      destruct (fst (worker_pass o l)) as [w s lm rm lc], l as [w0 s0 lm0 rm0 lc0].
      simpl in *. congruence. }
    rewrite Hev, Hsame.
    destruct (IH l Hup) as (-> & ->).
    destruct Hup as (Hw & Hs & Hl & Hr).
    unfold suspend_releases. rewrite Hw, Hs, Hl, Hr. split; reflexivity.
Qed.

(** C3: over passes that all read the suspend flag as set (whatever they
    read of the action flags), the loop emits, in the first pass, one
    release for each held action whose output is down, and nothing else:
    no press, no move, no click; afterwards every output is recorded up and
    the later passes emit nothing.  The hotkey for suspend stores the
    suspend flag only: the five action flags and the saved position keep
    their values, and no pass of the worker writes a global. *)
Theorem suspended_releases_then_idle :
  (forall (o : observation) (os : list observation) (l : locals),
     suspended_run (o :: os) ->
     loop_events (o :: os) l = suspend_releases l
     /\ loop_events (o :: os) l = snd (worker_pass o l)
     /\ (forall e, In e (loop_events (o :: os) l) -> is_press e = false)
     /\ (forall a, In a held_actions ->
           events_of a (loop_events (o :: os) l)
           = if truthy (is_down a l) then [release a] else [])
     /\ events_of ACTION_SPAM_LMB (loop_events (o :: os) l) = []
     /\ all_up (loop_locals (o :: os) l)
     /\ (forall o', truthy (o_suspended o') = true ->
           snd (worker_pass o' (loop_locals (o :: os) l)) = []))
  /\ (forall (c : cursor) (g : globals),
        let g' := globals_after (handle_action ACTION_SUSPEND) c g in
        g_suspended g' = c_not (g_suspended g)
        /\ g_spam_left g' = g_spam_left g
        /\ g_hold_w g' = g_hold_w g /\ g_hold_s g' = g_hold_s g
        /\ g_hold_lmb g' = g_hold_lmb g /\ g_hold_rmb g' = g_hold_rmb g
        /\ g_saved_x g' = g_saved_x g /\ g_saved_y g' = g_saved_y g)
  /\ (forall (s : system) (now : Z),
        truthy (g_running (sys_globals s)) = true ->
        sys_globals (run_step s (Poll now)) = sys_globals s).
Proof.
  split; [|split].
  - intros o os l Hos.
    inversion Hos as [|? ? (Hrun & Hsus) Hos']; subst.
    destruct (suspended_pass o l Hsus) as (Hev & Hup & Hlc).
    destruct (suspended_idle os _ Hos' Hup) as (Hev' & Hloc').
    assert (Htr : loop_events (o :: os) l = suspend_releases l).
    { rewrite loop_events_cons, Hev, Hev', app_nil_r by assumption. reflexivity. }
    assert (Hl : loop_locals (o :: os) l = fst (worker_pass o l)).
    { rewrite loop_locals_cons by assumption. assumption. }
    rewrite Htr, Hl.
    split; [reflexivity|].
    split; [symmetry; assumption|].
    split.
    { intros e. unfold suspend_releases.
      destruct (truthy (w_is_down l)), (truthy (s_is_down l)),
        (truthy (lmb_is_down l)), (truthy (rmb_is_down l)); simpl;
        intuition (subst; reflexivity). }
    split.
    { intros a Ha. unfold suspend_releases.
      held_cases Ha;
        cbv [is_down ACTION_HOLD_W ACTION_HOLD_S ACTION_HOLD_LMB
               ACTION_HOLD_RMB Z.eqb Pos.eqb];
        destruct (truthy (w_is_down l)), (truthy (s_is_down l)),
          (truthy (lmb_is_down l)), (truthy (rmb_is_down l)); reflexivity. }
    split.
    { unfold suspend_releases.
      destruct (truthy (w_is_down l)), (truthy (s_is_down l)),
        (truthy (lmb_is_down l)), (truthy (rmb_is_down l)); reflexivity. }
    split; [assumption|].
    intros o' Hsus'.
    destruct (suspended_pass o' (fst (worker_pass o l)) Hsus') as (-> & _).
    destruct Hup as (Hw & Hs & Hlm & Hr).
    unfold suspend_releases. rewrite Hw, Hs, Hlm, Hr. reflexivity.
  - intros c g. cbn. repeat split.
  - intros s now Hrun. unfold run_step.
    destruct (sys_worker_done s); [reflexivity|].
    cbn [observe o_running atomic_load]. rewrite Hrun.
    destruct (worker_pass _ _). reflexivity.
Qed.

(** W and the right button are down when three suspended passes begin:
    one release each. *)
Lemma suspended_releases_then_idle_witness :
  loop_events [suspended_obs; suspended_obs; suspended_obs]
    (Locals 1 0 0 1 0)
  = [release ACTION_HOLD_W; release ACTION_HOLD_RMB].
Proof.
  apply (proj1 (proj1 suspended_releases_then_idle suspended_obs
                  [suspended_obs; suspended_obs] (Locals 1 0 0 1 0)
                  ltac:(repeat constructor))).
Defined.

(** ** The hotkey of the repeated click *)

Ltac run_prog :=
  cbv [handle_action toggle_with_log save_cursor_pos
       mbind prog_bind mret prog_ret load store get_cursor printf
       fflush_stdout overlay_draw atomic_load
       ACTION_SPAM_LMB ACTION_HOLD_W ACTION_HOLD_S ACTION_HOLD_RMB
       ACTION_HOLD_LMB ACTION_SUSPEND ACTION_EXIT Z.eqb Pos.eqb].

(** The call when the program is not suspended: the cursor is read and
    stored, then the flag is flipped. *)
Lemma handle_action_spam_active (c : cursor) (g : globals) :
  truthy (g_suspended g) = false ->
  handle_action ACTION_SPAM_LMB c g
  = (tt,
     atomic_store G_spam_left (c_not (g_spam_left g))
       (atomic_store G_saved_y (cursor_y c)
          (atomic_store G_saved_x (cursor_x c) g)),
     [EGetCursor;
      EStore G_saved_x (cursor_x c);
      EStore G_saved_y (cursor_y c);
      EPrintf "Saved cursor position: (%d, %d)\n"
        [ArgInt (cursor_x c); ArgInt (cursor_y c)];
      EFflush;
      EStore G_spam_left (c_not (g_spam_left g));
      EPrintf "%s: %s\n"
        [ArgStr "Spam LMB";
         ArgStr (if truthy (c_not (g_spam_left g)) then "ON" else "OFF")];
      EFflush;
      EOverlayDraw]).
Proof. intros Hsus. run_prog. rewrite Hsus. reflexivity. Qed.

(** The call when the program is suspended: the flag is flipped, the
    cursor is not read. *)
Lemma handle_action_spam_suspended (c : cursor) (g : globals) :
  truthy (g_suspended g) = true ->
  handle_action ACTION_SPAM_LMB c g
  = (tt,
     atomic_store G_spam_left (c_not (g_spam_left g)) g,
     [EStore G_spam_left (c_not (g_spam_left g));
      EPrintf "%s: %s\n"
        [ArgStr "Spam LMB";
         ArgStr (if truthy (c_not (g_spam_left g)) then "ON" else "OFF")];
      EFflush;
      EOverlayDraw]).
Proof. intros Hsus. run_prog. rewrite Hsus. reflexivity. Qed.

(** C4, as the specification states it, fails: with the repeated click on
    and the program not suspended, the hotkey turns the click off (the new
    value is false) and still reads the cursor, at (5, 7), and stores it
    over the saved position (100, 200). *)
Lemma spam_toggle_off_captures :
  let g := globals_after (handle_action ACTION_SPAM_LMB) (Cursor 100 200)
             initial_globals in
  let es := effects_of (handle_action ACTION_SPAM_LMB) (Cursor 5 7) g in
  let g' := globals_after (handle_action ACTION_SPAM_LMB) (Cursor 5 7) g in
  truthy (g_suspended g) = false
  /\ truthy (g_spam_left g) = true
  /\ truthy (g_spam_left g') = false
  /\ (g_saved_x g, g_saved_y g) = (100, 200)
  /\ es = [EGetCursor; EStore G_saved_x 5; EStore G_saved_y 7;
           EPrintf "Saved cursor position: (%d, %d)\n" [ArgInt 5; ArgInt 7];
           EFflush; EStore G_spam_left 0;
           EPrintf "%s: %s\n" [ArgStr "Spam LMB"; ArgStr "OFF"];
           EFflush; EOverlayDraw]
  /\ (g_saved_x g', g_saved_y g') = (5, 7).
Proof. repeat split. Qed.

(** C4, amended: the hotkey of the repeated click reads the cursor and
    stores it as the saved position if and only if the program is not
    suspended, whether the flag goes on or off.  The stores of the position
    come before the store of the flag: whoever sees the flag flipped sees
    the new position.  When the program is suspended the saved position is
    not written.  In both cases the flag is flipped. *)
Theorem spam_toggle_capture (c : cursor) (g : globals) :
  let es := effects_of (handle_action ACTION_SPAM_LMB) c g in
  let g' := globals_after (handle_action ACTION_SPAM_LMB) c g in
  g_spam_left g' = c_not (g_spam_left g)
  /\ replay es g = g'
  /\ (In EGetCursor es <-> truthy (g_suspended g) = false)
  /\ (truthy (g_suspended g) = false ->
      g_saved_x g' = cursor_x c /\ g_saved_y g' = cursor_y c
      /\ forall n : nat,
           g_spam_left (replay (take n es) g) <> g_spam_left g ->
           g_saved_x (replay (take n es) g) = cursor_x c
           /\ g_saved_y (replay (take n es) g) = cursor_y c)
  /\ (truthy (g_suspended g) = true ->
      forall n : nat,
        g_saved_x (replay (take n es) g) = g_saved_x g
        /\ g_saved_y (replay (take n es) g) = g_saved_y g).
Proof.
  intros es g'. subst es g'. unfold effects_of, globals_after.
  destruct (truthy (g_suspended g)) eqn:Hsus.
  - rewrite (handle_action_spam_suspended c g Hsus). cbn [fst snd].
    split; [reflexivity|]. split; [reflexivity|].
    split.
    { split; [|discriminate]. simpl. intuition discriminate. }
    split; [discriminate|].
    intros _ n.
    do 5 (destruct n as [|n]; [split; reflexivity|]).
    split; reflexivity.
  - rewrite (handle_action_spam_active c g Hsus). cbn [fst snd].
    split; [reflexivity|]. split; [reflexivity|].
    split.
    { split; [reflexivity|]. intros _. left. reflexivity. }
    split; [|discriminate].
    intros _. split; [reflexivity|]. split; [reflexivity|].
    intros n.
    do 6 (destruct n as [|n];
          [simpl; intros Hflip; try (exfalso; apply Hflip; reflexivity);
           split; reflexivity|]).
    do 4 (destruct n as [|n]; [intros _; split; reflexivity|]).
    intros _; split; reflexivity.
Qed.

(** ** Pairing of presses and releases *)

Lemma pairing_app (d : bool) (t1 t2 : list event) :
  pairing d (t1 ++ t2)
  = match pairing d t1 with
    | Some d' => pairing d' t2
    | None => None
    end.
Proof.
  revert d. induction t1 as [|e t1 IH]; intros d; simpl; [reflexivity|].
  destruct (is_press e), (is_release e), d; auto.
Qed.

Lemma held_out_press (a : Z) : is_press (press a) = true.
Proof.
  unfold press, held_out, is_press.
  destruct (a =? ACTION_HOLD_W), (a =? ACTION_HOLD_S), (a =? ACTION_HOLD_LMB);
    reflexivity.
Qed.

Lemma held_out_release (a : Z) :
  is_press (release a) = false /\ is_release (release a) = true.
Proof.
  unfold release, held_out, is_press, is_release.
  destruct (a =? ACTION_HOLD_W), (a =? ACTION_HOLD_S), (a =? ACTION_HOLD_LMB);
    split; reflexivity.
Qed.

(** The block of a held action keeps the pairing: from the recorded state
    its events lead to the newly recorded state. *)
Lemma held_step_pairing (a : Z) (o : observation) (l : locals) :
  pairing (truthy (is_down a l)) (snd (held_step a o l))
  = Some (truthy (fst (held_step a o l))).
Proof.
  unfold held_step, release_if_down, hold_block.
  fold (press a). fold (release a).
  destruct (truthy (o_suspended o)), (truthy (desired a o)),
    (truthy (is_down a l)) eqn:Hd;
    cbn [fst snd negb pairing];
    rewrite ?held_out_press, ?(proj1 (held_out_release a)),
      ?(proj2 (held_out_release a)), ?Hd; reflexivity.
Qed.

Lemma loop_held_pairing (a : Z) (os : list observation) (l : locals) :
  In a held_actions ->
  pairing (truthy (is_down a l)) (events_of a (loop_events os l))
  = Some (truthy (is_down a (loop_locals os l))).
Proof.
  intros Ha. revert l. induction os as [|o os IH]; intros l.
  - reflexivity.
  - destruct (truthy (o_running o)) eqn:Hrun.
    + rewrite loop_events_cons, loop_locals_cons, events_of_app, pairing_app
        by assumption.
      rewrite worker_pass_held_events, held_step_pairing by assumption.
      rewrite <- worker_pass_held_locals by assumption. apply IH.
    + rewrite loop_events_stop, loop_locals_stop by assumption. reflexivity.
Qed.

Lemma spam_block_pairing (o : observation) (lc : Z) :
  pairing false (snd (spam_block o lc)) = Some false.
Proof.
  unfold spam_block.
  destruct (truthy (o_spam_left o)); [|reflexivity].
  destruct (30 <=? (o_now o - lc) mod UINT64_MOD); reflexivity.
Qed.

Lemma loop_spam_pairing (os : list observation) (l : locals) :
  pairing false (events_of ACTION_SPAM_LMB (loop_events os l)) = Some false.
Proof.
  revert l. induction os as [|o os IH]; intros l.
  - reflexivity.
  - destruct (truthy (o_running o)) eqn:Hrun.
    + rewrite loop_events_cons, events_of_app, pairing_app by assumption.
      rewrite worker_pass_spam_events.
      destruct (truthy (o_suspended o)); [apply IH|].
      rewrite spam_block_pairing. apply IH.
    + rewrite loop_events_stop by assumption. reflexivity.
Qed.

Lemma worker_pass_actions (o : observation) (l : locals) (e : event) :
  In e (snd (worker_pass o l)) -> is_action (ev_action e).
Proof.
  rewrite worker_pass_events.
  unfold release_if_down, hold_block, spam_block, is_action, held_actions.
  destruct (truthy (o_suspended o)).
  - destruct (truthy (w_is_down l)), (truthy (s_is_down l)),
      (truthy (lmb_is_down l)), (truthy (rmb_is_down l)); simpl;
      intuition (subst; simpl; auto).
  - rewrite !in_app_iff.
    intros [H|[H|[H|[H|H]]]]; revert H;
      repeat match goal with |- context [if ?b then _ else _] => destruct b end;
      simpl; intuition (subst; simpl; auto).
Qed.

Lemma loop_events_actions (os : list observation) (l : locals) (e : event) :
  In e (loop_events os l) -> is_action (ev_action e).
Proof.
  revert l. induction os as [|o os IH]; intros l.
  - intros [].
  - destruct (truthy (o_running o)) eqn:Hrun.
    + rewrite loop_events_cons by assumption. rewrite in_app_iff.
      intros [H|H]; [eapply worker_pass_actions; eassumption|eapply IH; eassumption].
    + rewrite loop_events_stop by assumption. intros [].
Qed.

Lemma events_of_other (a : Z) (tr : list event) :
  (forall e, In e tr -> ev_action e <> a) -> events_of a tr = [].
Proof.
  induction tr as [|e tr IH]; intros Hne; [reflexivity|].
  simpl. destruct (Z.eqb_spec (ev_action e) a) as [E|E].
  - exfalso. apply (Hne e); [left; reflexivity|assumption].
  - apply IH. intros e' He'. apply Hne. right. assumption.
Qed.

Lemma classic_is_action (a : Z) : is_action a \/ ~ is_action a.
Proof.
  unfold is_action, held_actions. simpl.
  destruct (Z.eq_dec a ACTION_SPAM_LMB), (Z.eq_dec a ACTION_HOLD_W),
    (Z.eq_dec a ACTION_HOLD_S), (Z.eq_dec a ACTION_HOLD_LMB),
    (Z.eq_dec a ACTION_HOLD_RMB); intuition congruence.
Qed.

Lemma loop_well_paired (a : Z) (os : list observation) :
  well_paired a (loop_events os initial_locals) = true.
Proof.
  unfold well_paired.
  destruct (classic_is_action a) as [[->|Ha]|Hno].
  - rewrite loop_spam_pairing. reflexivity.
  - pose proof (loop_held_pairing a os initial_locals Ha) as Hp.
    replace (truthy (is_down a initial_locals)) with false in Hp.
    + rewrite Hp. reflexivity.
    + held_cases Ha; reflexivity.
  - rewrite events_of_other; [reflexivity|].
    intros e He Heq. subst a. apply Hno.
    eapply loop_events_actions. eassumption.
Qed.

Lemma set_all_up_events_of (a : Z) (g : globals) :
  In a held_actions -> events_of a (snd (set_all_up g)) = [release a].
Proof. intros Ha. held_cases Ha; reflexivity. Qed.

(** C5, as the specification states it, fails: the stop is requested
    before any action was ever toggled; the loop emits nothing, and the
    final pass releases W, S and the two buttons, none of which was ever
    pressed. *)
Lemma shutdown_release_unpaired :
  let g := globals_after (handle_action ACTION_EXIT) (Cursor 0 0) initial_globals in
  worker_thread [observe g 100] g
  = Some (g, [release ACTION_HOLD_W; release ACTION_HOLD_S;
              release ACTION_HOLD_LMB; release ACTION_HOLD_RMB])
  /\ well_paired ACTION_HOLD_W
       [release ACTION_HOLD_W; release ACTION_HOLD_S;
        release ACTION_HOLD_LMB; release ACTION_HOLD_RMB] = false.
Proof. split; reflexivity. Qed.

(** C5, amended: over the polling cycle, from the initial all-up state,
    the events of every action alternate press and release, starting with a
    press.  The final pass of [set_all_up] then releases each of the four
    held outputs once, down or not: over the whole run of the thread the
    events of a held action are paired exactly when its output is recorded
    down at the exit of the loop, and the clicks stay paired. *)
Theorem polling_events_paired (os : list observation) :
  (forall a, well_paired a (loop_events os initial_locals) = true)
  /\ (forall g g' tr,
        worker_thread os g = Some (g', tr) ->
        tr = loop_events os initial_locals
             ++ [release ACTION_HOLD_W; release ACTION_HOLD_S;
                 release ACTION_HOLD_LMB; release ACTION_HOLD_RMB]
        /\ well_paired ACTION_SPAM_LMB tr = true
        /\ (forall a, In a held_actions ->
              well_paired a tr
              = truthy (is_down a (loop_locals os initial_locals)))).
Proof.
  split; [intros a; apply loop_well_paired|].
  intros g g' tr Hret.
  unfold worker_thread in Hret.
  pose proof (loop_spam_pairing os initial_locals) as Hspam.
  pose proof (fun a => loop_held_pairing a os initial_locals) as Hheld.
  unfold loop_events, loop_locals in *.
  destruct (worker_loop os initial_locals) as [[l tr0] ex].
  destruct ex; [|discriminate].
  cbn [fst snd] in *.
  injection Hret as _ <-.
  split; [reflexivity|].
  split.
  - unfold well_paired. rewrite events_of_app, pairing_app, Hspam. reflexivity.
  - intros a Ha. unfold well_paired.
    rewrite events_of_app, pairing_app.
    assert (Hup : truthy (is_down a initial_locals) = false)
      by (clear Hheld; held_cases Ha; reflexivity).
    specialize (Hheld a Ha). rewrite Hup in Hheld. rewrite Hheld.
    replace (events_of a _) with [release a]
      by (symmetry; apply (set_all_up_events_of a g Ha)).
    cbn [pairing]. destruct (held_out_release a) as [-> ->].
    destruct (truthy (is_down a l)); reflexivity.
Qed.

(** W is down when the loop exits: its events, with the final release,
    are paired. *)
Lemma polling_events_paired_witness :
  well_paired ACTION_HOLD_W
    (loop_events shutdown_sample initial_locals
     ++ [release ACTION_HOLD_W; release ACTION_HOLD_S;
         release ACTION_HOLD_LMB; release ACTION_HOLD_RMB])
  = truthy (is_down ACTION_HOLD_W (loop_locals shutdown_sample initial_locals)).
Proof.
  pose proof (proj2 (polling_events_paired shutdown_sample)
                initial_globals (fst (set_all_up initial_globals))
                _ eq_refl) as (_ & _ & Hheld).
  apply (Hheld ACTION_HOLD_W). left. reflexivity.
Defined.

(** ** The timing of the repeated click *)

(** The block of the click when the clock has not run backwards: the
    [uint64_t] difference is the elapsed time. *)
Lemma spam_block_elapsed (o : observation) (lc : Z) :
  0 <= lc <= o_now o -> o_now o < UINT64_MOD ->
  spam_block o lc
  = if truthy (o_spam_left o) then
      if 30 <=? o_now o - lc then (o_now o, click (o_saved_x o) (o_saved_y o))
      else (lc, [])
    else (lc, []).
Proof.
  intros Hlc Hnow. unfold spam_block.
  rewrite Z.mod_small by lia. reflexivity.
Qed.

Lemma click_times_cons (o : observation) (os : list observation) (l : locals) :
  truthy (o_running o) = true ->
  click_times (o :: os) l
  = match events_of ACTION_SPAM_LMB (snd (worker_pass o l)) with
    | [] => click_times os (fst (worker_pass o l))
    | _ => o_now o :: click_times os (fst (worker_pass o l))
    end.
Proof.
  intros Hrun. simpl. rewrite Hrun.
  destruct (worker_pass o l) as [l1 e1]. reflexivity.
Qed.

Lemma clock_monotone_weaken (t t' : Z) (os : list observation) :
  t' <= t -> clock_monotone t os -> clock_monotone t' os.
Proof. destruct os as [|o os]; simpl; [auto|]. intros Hle [Hnow Hos]. split; [lia|assumption]. Qed.

(** Clicks of one run of the loop are at least 30 ms apart, and at least
    30 ms after the click recorded in [last_click] at its start. *)
Lemma click_spacing (os : list observation) (l : locals) :
  0 <= last_click l -> clock_monotone (last_click l) os ->
  spaced 30 (last_click l) (click_times os l).
Proof.
  revert l. induction os as [|o os IH]; intros l Hlc Hclock; [exact I|].
  destruct Hclock as [Hnow Hclock].
  destruct (truthy (o_running o)) eqn:Hrun; [|simpl; rewrite Hrun; exact I].
  rewrite click_times_cons by assumption.
  rewrite worker_pass_spam_events.
  pose proof (worker_pass_last_click o l) as Hlast.
  destruct (truthy (o_suspended o)).
  - rewrite <- Hlast. apply IH; rewrite Hlast; [assumption|].
    apply (clock_monotone_weaken (o_now o)); [lia|assumption].
  - rewrite spam_block_elapsed in * by lia.
    destruct (truthy (o_spam_left o)).
    + destruct (Z.leb_spec 30 (o_now o - last_click l)); cbn [fst snd] in *.
      * cbn [click]. split; [lia|].
        rewrite <- Hlast. apply IH; rewrite Hlast; [lia|assumption].
      * rewrite <- Hlast. apply IH; rewrite Hlast; [assumption|].
        apply (clock_monotone_weaken (o_now o)); [lia|assumption].
    + cbn [fst snd] in *. rewrite <- Hlast. apply IH; rewrite Hlast; [assumption|].
      apply (clock_monotone_weaken (o_now o)); [lia|assumption].
Qed.

(** C6, as the specification states it, fails: the click is toggled on and
    fires at 1000 ms, is toggled off, and is toggled on again; the next pass
    of the loop, at 1010 ms, emits no click, because only 10 ms have passed
    since the stale [last_click]; the click fires in the pass at 1030 ms. *)
Lemma retoggle_within_interval_no_click :
  let s := run [Hotkey ACTION_SPAM_LMB (Cursor 100 200); Poll 1000;
                Hotkey ACTION_SPAM_LMB (Cursor 100 200); Poll 1005;
                Hotkey ACTION_SPAM_LMB (Cursor 100 200)] initial_system in
  truthy (g_spam_left (sys_globals s)) = true
  /\ truthy (g_suspended (sys_globals s)) = false
  /\ last_click (sys_locals s) = 1000
  /\ sys_events s = click 100 200
  /\ sys_events (run_step s (Poll 1010)) = sys_events s
  /\ sys_events (run [Poll 1010; Poll 1030] s) = click 100 200 ++ click 100 200.
Proof. repeat split. Qed.

(** C6, amended: the time of the last click is kept when the click is off
    or the program suspended (it is not reset by the toggle).  In a pass
    that is not suspended and reads the click as on, the click (move to the
    saved position, press left, release left) is emitted if and only if at
    least 30 ms have passed since [last_click], and then [last_click]
    becomes the current time; otherwise nothing is emitted and [last_click]
    stays.  So the first click after a toggle fires in the next pass only
    when 30 ms have passed since the previous click, and in every run the
    clicks are at least 30 ms apart. *)
Theorem spam_click_timing :
  (forall (o : observation) (l : locals),
     truthy (o_suspended o) = true \/ truthy (o_spam_left o) = false ->
     events_of ACTION_SPAM_LMB (snd (worker_pass o l)) = []
     /\ last_click (fst (worker_pass o l)) = last_click l)
  /\ (forall (o : observation) (l : locals),
        truthy (o_suspended o) = false -> truthy (o_spam_left o) = true ->
        0 <= last_click l <= o_now o -> o_now o < UINT64_MOD ->
        (30 <= o_now o - last_click l ->
           events_of ACTION_SPAM_LMB (snd (worker_pass o l))
           = click (o_saved_x o) (o_saved_y o)
           /\ last_click (fst (worker_pass o l)) = o_now o)
        /\ (o_now o - last_click l < 30 ->
           events_of ACTION_SPAM_LMB (snd (worker_pass o l)) = []
           /\ last_click (fst (worker_pass o l)) = last_click l))
  /\ (forall (os : list observation) (l : locals),
        0 <= last_click l -> clock_monotone (last_click l) os ->
        spaced 30 (last_click l) (click_times os l)).
Proof.
  split; [|split].
  - intros o l Hoff.
    rewrite worker_pass_spam_events, worker_pass_last_click.
    destruct (truthy (o_suspended o)); [split; reflexivity|].
    destruct Hoff as [Hoff|Hoff]; [discriminate|].
    unfold spam_block. rewrite Hoff. split; reflexivity.
  - intros o l Hsus Hon Hlc Hnow.
    rewrite worker_pass_spam_events, worker_pass_last_click, Hsus.
    rewrite spam_block_elapsed, Hon by assumption.
    split; intros Hel.
    + destruct (Z.leb_spec 30 (o_now o - last_click l)); [|lia].
      split; reflexivity.
    + destruct (Z.leb_spec 30 (o_now o - last_click l)); [lia|].
      split; reflexivity.
  - apply click_spacing.
Qed.

(** Passes at 1000, 1010 and 1030 ms read the click as on: clicks at 1000
    and 1030 ms. *)
Lemma spam_click_timing_witness :
  spaced 30 0 (click_times [spam_on 1000; spam_on 1010; spam_on 1030] initial_locals)
  /\ click_times [spam_on 1000; spam_on 1010; spam_on 1030] initial_locals
     = [1000; 1030].
Proof.
  split; [|reflexivity].
  apply (proj2 (proj2 spam_click_timing)
           [spam_on 1000; spam_on 1010; spam_on 1030] initial_locals).
  - simpl. lia.
  - unfold clock_monotone, spam_on, UINT64_MOD.
    cbn [o_now last_click initial_locals]. lia.
Defined.

(** ** Reading the configuration file *)


Lemma fgets_read_split (room : nat) (f : list ascii) :
  f = fst (fgets_read room f) ++ snd (fgets_read room f).
Proof.
  revert f. induction room as [|room IH]; intros f; [reflexivity|].
  destruct f as [|c f]; [reflexivity|]. simpl.
  destruct (Ascii.eqb c NL); [reflexivity|].
  specialize (IH f). destruct (fgets_read room f) as [l r]. simpl in *.
  congruence.
Qed.

Lemma fgets_read_progress (room : nat) (f : list ascii) :
  (0 < room)%nat -> f <> [] ->
  (length (snd (fgets_read room f)) < length f)%nat.
Proof.
  intros Hroom Hf.
  destruct room as [|room]; [lia|]. destruct f as [|c f]; [congruence|].
  cbn [fgets_read]. destruct (Ascii.eqb c NL); [simpl; lia|].
  pose proof (fgets_read_split room f) as Hsplit.
  destruct (fgets_read room f) as [l r]. cbn [fst snd] in *.
  subst f. cbn [length]. rewrite length_app. lia.
Qed.

(** An [fgets] that succeeds reads at least one character. *)
Lemma fgets_shrinks_any (size : nat) (f buf f' : list ascii) :
  (2 <= size)%nat ->
  fgets size f = Some (buf, f') -> (length f' < length f)%nat.
Proof.
  intros Hsize. unfold fgets.
  destruct f as [|c f]; [discriminate|].
  intros Hget.
  assert (Hread : fgets_read (size - 1) (c :: f) = (buf, f')) by congruence.
  pose proof (fgets_read_progress (size - 1) (c :: f)) as Hprog.
  rewrite Hread in Hprog. apply Hprog; [lia|discriminate].
Qed.

Lemma fgets_shrinks (f buf f' : list ascii) :
  fgets 256 f = Some (buf, f') -> (length f' < length f)%nat.
Proof. apply fgets_shrinks_any. lia. Qed.

Section Loading.

Variable XK : fkey -> Z.

(** The fuel of the loop does not matter once it covers the file. *)
Lemma load_loop_enough (n m : nat) (f : list ascii) (keys : list Z) :
  (length f <= n)%nat -> (length f <= m)%nat ->
  load_loop XK n f keys = load_loop XK m f keys.
Proof.
  revert m f keys. induction n as [|n IH]; intros m f keys Hn Hm.
  - destruct f; [|simpl in Hn; lia]. destruct m; reflexivity.
  - destruct m as [|m].
    + destruct f; [reflexivity|simpl in Hm; lia].
    + simpl. destruct (fgets 256 f) as [[buf f']|] eqn:Hget; [|reflexivity].
      apply fgets_shrinks in Hget. apply IH; lia.
Qed.

(** [load_hotkey_config], one [fgets] at a time. *)
Lemma load_config_step (f buf f' : list ascii) (keys : list Z) :
  fgets 256 f = Some (buf, f') ->
  load_hotkey_config XK (Some f) keys
  = load_hotkey_config XK (Some f') (load_line XK buf keys).
Proof.
  intros Hget. unfold load_hotkey_config.
  pose proof (fgets_shrinks _ _ _ Hget) as Hlt.
  destruct (length f) as [|n] eqn:Hlen; [lia|].
  simpl. rewrite Hget. apply load_loop_enough; lia.
Qed.

Lemma load_config_eof (keys : list Z) :
  load_hotkey_config XK (Some []) keys = keys.
Proof. reflexivity. Qed.

End Loading.

Lemma fgets_read_line (room : nat) (ln rest : list ascii) :
  ~ In NL ln -> (length ln < room)%nat ->
  fgets_read room (ln ++ NL :: rest) = (ln ++ [NL], rest).
Proof.
  revert room. induction ln as [|c ln IH]; intros room Hnl Hlen.
  - destruct room; [simpl in Hlen; lia|]. reflexivity.
  - destruct room as [|room]; [simpl in Hlen; lia|]. simpl.
    destruct (Ascii.eqb_spec c NL) as [->|_].
    + exfalso. apply Hnl. left. reflexivity.
    + rewrite IH; [reflexivity| |simpl in Hlen; lia].
      intros Hin. apply Hnl. right. assumption.
Qed.

(** A line of at most 254 characters and its newline fit the buffer: one
    [fgets] reads exactly that line. *)
Lemma fgets_line (ln rest : list ascii) :
  ~ In NL ln -> (length ln <= 254)%nat ->
  fgets 256 (ln ++ NL :: rest) = Some (ln ++ [NL], rest).
Proof.
  intros Hnl Hlen. unfold fgets.
  rewrite fgets_read_line by (simpl; lia || assumption).
  destruct ln; reflexivity.
Qed.

(** ** Saving and reloading the bindings *)

Section Bindings.

Variable XK : fkey -> Z.

Lemma key_code_from_name_known (name : list ascii) :
  key_code_from_name XK name = 0
  \/ exists k, key_code_from_name XK name = XK k.
Proof.
  unfold key_code_from_name. destruct name as [|c name]; [left; reflexivity|].
  repeat match goal with
  | |- context [if ?b then _ else _] => destruct b; [right; eexists; reflexivity|]
  end.
  left. reflexivity.
Qed.

(** A line of the file leaves the table as it is, or binds one action to
    the code of a known key. *)
Lemma load_line_cases (buf : list ascii) (keys : list Z) :
  load_line XK buf keys = keys
  \/ exists i k, (0 <= i < ACTION_COUNT)
                 /\ load_line XK buf keys = <[Z.to_nat i := XK k]> keys.
Proof.
  unfold load_line.
  destruct (_ || _); [left; reflexivity|].
  destruct (sscanf_key_val (c_str buf)) as [[n key] val].
  destruct (negb (n =? 2)); [left; reflexivity|].
  set (action := find_action_from 0 g_action_names key).
  assert (Hrange : action = -1 \/ 0 <= action < ACTION_COUNT).
  { subst action. unfold g_action_names, ACTION_COUNT. cbn [find_action_from].
    repeat match goal with
    | |- context [if ?b then _ else _] => destruct b; [right; simpl; lia|]
    end.
    left. reflexivity. }
  destruct (Z.ltb_spec action 0) as [Hneg|Hpos]; [left; reflexivity|].
  destruct Hrange as [Hrange|Hrange]; [lia|].
  destruct (key_code_from_name_known val) as [->|[k ->]]; [left; reflexivity|].
  destruct (negb (XK k =? 0)); [|left; reflexivity].
  right. exists action, k. split; [assumption|reflexivity].
Qed.

Lemma load_line_known (buf : list ascii) (keys : list Z) :
  known XK keys -> known XK (load_line XK buf keys).
Proof.
  intros Hk. destruct (load_line_cases buf keys) as [->|(i & k & _ & ->)];
    [assumption|].
  apply Forall_insert; [assumption|]. exists k. reflexivity.
Qed.

Lemma load_line_length (buf : list ascii) (keys : list Z) :
  length (load_line XK buf keys) = length keys.
Proof.
  destruct (load_line_cases buf keys) as [->|(i & k & _ & ->)];
    [reflexivity|apply length_insert].
Qed.

Lemma load_loop_known (fuel : nat) (f : list ascii) (keys : list Z) :
  known XK keys -> known XK (load_loop XK fuel f keys).
Proof.
  revert f keys. induction fuel as [|fuel IH]; intros f keys Hk; [assumption|].
  simpl. destruct (fgets 256 f) as [[buf f']|]; [|assumption].
  apply IH, load_line_known, Hk.
Qed.

Lemma load_loop_length (fuel : nat) (f : list ascii) (keys : list Z) :
  length (load_loop XK fuel f keys) = length keys.
Proof.
  revert f keys. induction fuel as [|fuel IH]; intros f keys; [reflexivity|].
  simpl. destruct (fgets 256 f) as [[buf f']|]; [|reflexivity].
  rewrite IH. apply load_line_length.
Qed.

(** Loading never assigns a value that is not the code of a known key, and
    keeps the seven entries of the table. *)
Lemma reachable_known (keys : list Z) :
  reachable XK keys ->
  length keys = Z.to_nat ACTION_COUNT /\ known XK keys.
Proof.
  induction 1 as [|cfg keys _ [IHlen IHk]].
  - split; [reflexivity|]. unfold known. cbv [init_default_hotkeys].
    repeat constructor; eexists; reflexivity.
  - destruct cfg as [f|]; simpl; [|split; assumption].
    split; [rewrite load_loop_length; assumption|].
    apply load_loop_known. assumption.
Qed.

(** The name written for the code of a known key names a key with that
    code. *)
Lemma key_name_from_code_known (k : fkey) :
  exists k', key_name_from_code XK (XK k) = fname k' /\ XK k' = XK k.
Proof.
  unfold key_name_from_code.
  repeat match goal with
  | |- context [XK k =? XK ?k'] =>
      destruct (Z.eqb_spec (XK k) (XK k'));
      [exists k'; split; [reflexivity|congruence]|]
  end.
  destruct k; congruence.
Qed.

Lemma key_code_from_fname (k : fkey) : key_code_from_name XK (fname k) = XK k.
Proof. destruct k; reflexivity. Qed.

Lemma config_line_fgets (name : list ascii) (k : fkey) (rest : list ascii) :
  In name g_action_names ->
  fgets 256 (config_line name (fname k) ++ rest)
  = Some (config_line name (fname k), rest).
Proof.
  intros Hin. unfold config_line.
  replace ((name ++ ["="%char] ++ fname k ++ [NL]) ++ rest)
    with ((name ++ ["="%char] ++ fname k) ++ NL :: rest)
    by (rewrite <- !app_assoc; reflexivity).
  replace (name ++ ["="%char] ++ fname k ++ [NL])
    with ((name ++ ["="%char] ++ fname k) ++ [NL])
    by (rewrite <- !app_assoc; reflexivity).
  apply fgets_line.
  - unfold g_action_names in Hin. simpl in Hin.
    repeat (destruct Hin as [<-|Hin]; [destruct k; vm_compute; intuition discriminate|]).
    destruct Hin.
  - unfold g_action_names in Hin. simpl in Hin.
    repeat (destruct Hin as [<-|Hin]; [destruct k; vm_compute; lia|]).
    destruct Hin.
Qed.

End Bindings.

Section Roundtrip.

Variable XK : fkey -> Z.

(** No key code of the platform is zero ([key_code_from_name] returns zero
    for a name it does not know). *)
Hypothesis XK_nonzero : forall k, XK k <> 0.

(** Loading a line that [save_hotkey_config] wrote binds its action to the
    key it names. *)
Lemma load_saved_line (i : nat) (name : list ascii) (k : fkey) (keys : list Z) :
  g_action_names !! i = Some name ->
  load_line XK (config_line name (fname k)) keys = <[i := XK k]> keys.
Proof.
  intros Hname.
  assert (Hnz : (XK k =? 0) = false).
  { destruct (Z.eqb_spec (XK k) 0) as [E|E]; [destruct (XK_nonzero k E)|reflexivity]. }
  unfold g_action_names in Hname.
  do 7 (destruct i as [|i];
        [injection Hname as <-; destruct k;
         cbv -[Z.eqb insert list_insert];
         change (2 =? 2) with true; rewrite Hnz; reflexivity|]).
  destruct i; discriminate.
Qed.

Lemma save_loop_names (keys : list Z) :
  length keys = Z.to_nat ACTION_COUNT -> known XK keys ->
  exists k0 k1 k2 k3 k4 k5 k6,
    keys = [XK k0; XK k1; XK k2; XK k3; XK k4; XK k5; XK k6]
    /\ save_loop XK g_action_names keys
       = config_line (lit "Spam LMB") (fname k0)
         ++ config_line (lit "Hold W") (fname k1)
         ++ config_line (lit "Hold S") (fname k2)
         ++ config_line (lit "Hold RMB") (fname k3)
         ++ config_line (lit "Hold LMB") (fname k4)
         ++ config_line (lit "Suspend") (fname k5)
         ++ config_line (lit "Exit") (fname k6) ++ [].
Proof.
  intros Hlen Hk.
  do 7 (destruct keys as [|? keys]; [discriminate|]).
  destruct keys; [|discriminate].
  unfold known in Hk.
  repeat match goal with
  | H : Forall _ (_ :: _) |- _ =>
      let k := fresh "k" in let k' := fresh "k'" in
      let E := fresh "E" in let E' := fresh "E'" in
      apply Forall_cons in H; destruct H as [[k ->] H];
      destruct (key_name_from_code_known XK k) as (k' & E & E')
  end.
  eexists _, _, _, _, _, _, _. split.
  - repeat match goal with E : XK _ = XK _ |- _ => rewrite <- E; clear E end.
    reflexivity.
  - unfold g_action_names. cbn [save_loop].
    repeat match goal with
    | E : key_name_from_code _ _ = _ |- _ => rewrite E; clear E
    end.
    reflexivity.
Qed.

(** C7: for every binding table the program can have (the defaults, changed
    by loading configuration files), writing the configuration file with
    [save_hotkey_config] and loading it with [load_hotkey_config], into any
    table of [ACTION_COUNT] entries, gives back the same key for every
    action. *)
Theorem config_roundtrip (keys keys0 : list Z) (cfg : option (list ascii)) :
  reachable XK keys ->
  length keys0 = Z.to_nat ACTION_COUNT ->
  load_hotkey_config XK (save_hotkey_config XK true cfg keys) keys0 = keys.
Proof.
  intros Hreach Hlen0.
  destruct (reachable_known XK keys Hreach) as [Hlen Hk].
  destruct (save_loop_names keys Hlen Hk)
    as (k0 & k1 & k2 & k3 & k4 & k5 & k6 & -> & Hsave).
  unfold save_hotkey_config. rewrite Hsave.
  repeat (erewrite load_config_step;
          [|apply config_line_fgets; unfold g_action_names; simpl; tauto]).
  rewrite load_config_eof.
  rewrite (load_saved_line 0 (lit "Spam LMB")) by reflexivity.
  rewrite (load_saved_line 1 (lit "Hold W")) by reflexivity.
  rewrite (load_saved_line 2 (lit "Hold S")) by reflexivity.
  rewrite (load_saved_line 3 (lit "Hold RMB")) by reflexivity.
  rewrite (load_saved_line 4 (lit "Hold LMB")) by reflexivity.
  rewrite (load_saved_line 5 (lit "Suspend")) by reflexivity.
  rewrite (load_saved_line 6 (lit "Exit")) by reflexivity.
  do 7 (destruct keys0 as [|? keys0]; [discriminate|]).
  destruct keys0; [|discriminate].
  reflexivity.
Qed.

End Roundtrip.

Lemma x11_keysym_nonzero (k : fkey) : x11_keysym k <> 0.
Proof. destruct k; discriminate. Qed.

(** The default bindings of X11, saved and loaded into the zeroed table. *)
Lemma config_roundtrip_witness :
  load_hotkey_config x11_keysym
    (save_hotkey_config x11_keysym true None
       (init_default_hotkeys x11_keysym g_action_keys_zero))
    g_action_keys_zero
  = init_default_hotkeys x11_keysym g_action_keys_zero.
Proof.
  apply (config_roundtrip x11_keysym x11_keysym_nonzero).
  - apply reach_default.
  - reflexivity.
Defined.

(** ** Comment lines, blank lines and lines that are not understood *)

Section Lines.

Variable XK : fkey -> Z.

(** When every line fits the buffer, the loop handles the file line by
    line. *)
Lemma load_short_lines (lines : list (list ascii)) (keys : list Z) :
  Forall fits_buffer lines ->
  load_hotkey_config XK (Some (file_of_lines lines)) keys
  = fold_left (fun ks ln => load_line XK (ln ++ [NL]) ks) lines keys.
Proof.
  intros Hfit. revert keys.
  induction Hfit as [|ln lines [Hnl Hlen] _ IH]; intros keys; [reflexivity|].
  unfold file_of_lines. cbn [map concat fold_left].
  rewrite <- app_assoc. cbn [app].
  rewrite (load_config_step XK _ _ _ keys (fgets_line ln _ Hnl Hlen)).
  apply IH.
Qed.

Lemma skip_ws_spaces (s : list ascii) :
  Forall (fun c => isspace c = true) s -> skip_ws s = [].
Proof. induction 1 as [|c s Hc _ IH]; simpl; [reflexivity|]. rewrite Hc. assumption. Qed.

Lemma c_str_spaces (s : list ascii) :
  Forall (fun c => isspace c = true) s ->
  Forall (fun c => isspace c = true) (c_str s).
Proof.
  induction 1 as [|c s Hc _ IH]; simpl; [constructor|].
  destruct (Ascii.eqb c NUL); constructor; assumption.
Qed.

(** A comment line or a blank line changes no binding. *)
Lemma load_line_comment_or_blank (ln : list ascii) (keys : list Z) :
  comment_or_blank ln -> load_line XK (ln ++ [NL]) keys = keys.
Proof.
  intros [Hhash|Hblank]; unfold load_line.
  - destruct ln as [|c ln]; simpl in Hhash; [discriminate|]. subst c.
    reflexivity.
  - assert (Hsp : Forall (fun c => isspace c = true) (c_str (ln ++ [NL]))).
    { apply c_str_spaces, Forall_app. split; [assumption|].
      constructor; [reflexivity|constructor]. }
    destruct (_ || _); [reflexivity|].
    unfold sscanf_key_val. rewrite (skip_ws_spaces _ Hsp). reflexivity.
Qed.

(** In a file whose lines fit the buffer, a comment line or a blank line
    is ignored: the bindings loaded are those of the file without it. *)
Lemma comment_or_blank_ignored (before after : list (list ascii))
    (ln : list ascii) (keys : list Z) :
  Forall fits_buffer (before ++ ln :: after) ->
  comment_or_blank ln ->
  load_hotkey_config XK (Some (file_of_lines (before ++ ln :: after))) keys
  = load_hotkey_config XK (Some (file_of_lines (before ++ after))) keys.
Proof.
  intros Hfit Hln.
  assert (Hfit' : Forall fits_buffer (before ++ after)).
  { apply Forall_app in Hfit. destruct Hfit as [Hb Ha].
    apply Forall_app. split; [assumption|].
    apply Forall_cons in Ha. tauto. }
  rewrite !load_short_lines by assumption.
  rewrite !fold_left_app. cbn [fold_left].
  rewrite load_line_comment_or_blank by assumption. reflexivity.
Qed.

(** A line whose action name or key name is not recognized changes no
    binding. *)
Lemma load_line_not_recognized (buf : list ascii) (keys : list Z) :
  find_action_from 0 g_action_names (snd (fst (sscanf_key_val (c_str buf)))) = -1
  \/ key_code_from_name XK (snd (sscanf_key_val (c_str buf))) = 0 ->
  load_line XK buf keys = keys.
Proof.
  intros Hno. unfold load_line.
  destruct (_ || _); [reflexivity|].
  destruct (sscanf_key_val (c_str buf)) as [[n key] val]. cbn [fst snd] in Hno.
  destruct (negb (n =? 2)); [reflexivity|].
  destruct Hno as [-> | ->]; [reflexivity|].
  destruct (_ <? 0); reflexivity.
Qed.

(** Loading is total, keeps the seven entries of the table, and every
    entry afterwards is the entry before or the code of a known key. *)
Lemma load_assigns_known_codes (cfg : option (list ascii)) (keys : list Z) (i : nat) :
  length (load_hotkey_config XK cfg keys) = length keys
  /\ (load_hotkey_config XK cfg keys !! i = keys !! i
      \/ exists k, load_hotkey_config XK cfg keys !! i = Some (XK k)).
Proof.
  destruct cfg as [f|]; [|split; [reflexivity|left; reflexivity]].
  unfold load_hotkey_config. generalize (length f) as fuel.
  intros fuel. split; [apply load_loop_length|].
  revert f keys. induction fuel as [|fuel IH]; intros f keys; [left; reflexivity|].
  simpl. destruct (fgets 256 f) as [[buf f']|]; [|left; reflexivity].
  destruct (IH f' (load_line XK buf keys)) as [Hsame|Hk]; [|right; assumption].
  rewrite Hsame.
  destruct (load_line_cases XK buf keys) as [->|(j & k & _ & ->)];
    [left; reflexivity|].
  destruct (decide (Z.to_nat j = i)) as [<-|Hne].
  - destruct (Nat.lt_ge_cases (Z.to_nat j) (length keys)) as [Hlt|Hge].
    + right. exists k. apply list_lookup_insert_eq. assumption.
    + left. rewrite list_insert_ge by assumption. reflexivity.
  - left. apply list_lookup_insert_ne. assumption.
Qed.

End Lines.

(** C8 fails on the code for a comment line longer than the buffer: the
    file is a single line that starts with ['#'], yet loading it over the
    defaults binds "Hold W" to F2.  The first [fgets] returns the first 255
    bytes, which are skipped as a comment; the second returns the rest of
    the same line, which is parsed as a line of its own. *)
Theorem long_comment_line_binds :
  hd NUL long_comment = "#"%char
  /\ count_occ ascii_dec long_comment NL = 1%nat
  /\ last long_comment = Some NL
  /\ fgets 256 long_comment
     = Some ("#"%char :: replicate 254 " "%char, lit "Hold W=F2" ++ [NL])
  /\ init_default_hotkeys x11_keysym g_action_keys_zero
     = [x11_keysym F2; x11_keysym F3; x11_keysym F4; x11_keysym F6;
        x11_keysym F7; x11_keysym F9; x11_keysym F10]
  /\ load_hotkey_config x11_keysym (Some long_comment)
       (init_default_hotkeys x11_keysym g_action_keys_zero)
     = [x11_keysym F2; x11_keysym F2; x11_keysym F4; x11_keysym F6;
        x11_keysym F7; x11_keysym F9; x11_keysym F10].
Proof. repeat split; vm_compute; reflexivity. Qed.

(** * Further properties of the code *)

(** ** Case-insensitive substring search *)

Lemma needle_matches_spec (h n : list ascii) :
  needle_matches h n = true
  <-> exists post, map tolower h = map tolower n ++ post.
Proof.
  revert h. induction n as [|cn n IH]; intros h; simpl.
  - split; [intros _; eexists; reflexivity|reflexivity].
  - destruct h as [|ch h]; simpl.
    + split; [discriminate|intros [post Hp]; discriminate].
    + destruct (Ascii.eqb_spec (tolower ch) (tolower cn)) as [E|E].
      * rewrite IH, E. split; intros [post Hp]; exists post; congruence.
      * split; [discriminate|]. intros [post Hp]. congruence.
Qed.

Lemma strcasestr_from_spec (p n : list ascii) :
  n <> [] ->
  strcasestr_from p n = 1
  <-> exists pre post, map tolower p = pre ++ map tolower n ++ post.
Proof.
  intros Hn. induction p as [|c p IH].
  - simpl. split; [discriminate|].
    intros (pre & post & Hp). destruct n; [congruence|].
    destruct pre; discriminate.
  - cbn [strcasestr_from].
    destruct (needle_matches (c :: p) n) eqn:Hm.
    + split; [intros _|reflexivity].
      apply needle_matches_spec in Hm. destruct Hm as [post Hp].
      exists [], post. assumption.
    + rewrite IH. split.
      * intros (pre & post & Hp). exists (tolower c :: pre), post.
        simpl. congruence.
      * intros (pre & post & Hp). destruct pre as [|x pre].
        -- exfalso.
           assert (needle_matches (c :: p) n = true)
             by (apply needle_matches_spec; exists post; assumption).
           congruence.
        -- exists pre, post. simpl in Hp. congruence.
Qed.

Lemma strcasestr_from_bool (p n : list ascii) :
  strcasestr_from p n = 0 \/ strcasestr_from p n = 1.
Proof.
  induction p as [|c p IH]; [left; reflexivity|].
  cbn [strcasestr_from]. destruct (needle_matches (c :: p) n); [right; reflexivity|assumption].
Qed.

(** X1: [strcasestr_simple] returns 1 exactly when the needle is not empty
    and occurs in the haystack, letters compared without their case; it
    returns 0 otherwise, in particular for an empty needle and for a null
    pointer. *)
Theorem strcasestr_simple_finds_substring (h n : list ascii) :
  (strcasestr_simple (Some h) (Some n) = 1
   <-> n <> [] /\ exists pre post, map tolower h = pre ++ map tolower n ++ post)
  /\ (strcasestr_simple (Some h) (Some n) = 0
      \/ strcasestr_simple (Some h) (Some n) = 1)
  /\ strcasestr_simple (Some h) (Some []) = 0
  /\ strcasestr_simple None (Some n) = 0
  /\ strcasestr_simple (Some h) None = 0.
Proof.
  split; [|split; [|repeat split]].
  - destruct n as [|c n].
    + simpl. split; [discriminate|intros [Hne _]; congruence].
    + cbn [strcasestr_simple]. rewrite strcasestr_from_spec by discriminate.
      split; [intros Hex; split; [discriminate|assumption]|intros [_ Hex]; assumption].
  - destruct n as [|c n]; [left; reflexivity|apply strcasestr_from_bool].
Qed.

Lemma tolower_toupper (c : ascii) : tolower (toupper_az c) = tolower c.
Proof.
  destruct c as [[] [] [] [] [] [] [] []]; reflexivity.
Qed.

Lemma tolower_idempotent (c : ascii) : tolower (tolower c) = tolower c.
Proof.
  destruct c as [[] [] [] [] [] [] [] []]; reflexivity.
Qed.

Lemma needle_matches_ext (h h' n n' : list ascii) :
  map tolower h = map tolower h' -> map tolower n = map tolower n' ->
  needle_matches h n = needle_matches h' n'.
Proof.
  intros Hh Hn.
  destruct (needle_matches h n) eqn:E1, (needle_matches h' n') eqn:E2;
    try reflexivity.
  - apply needle_matches_spec in E1. rewrite Hh, Hn in E1.
    apply needle_matches_spec in E1. congruence.
  - apply needle_matches_spec in E2. rewrite <- Hh, <- Hn in E2.
    apply needle_matches_spec in E2. congruence.
Qed.

Lemma strcasestr_from_ext (h h' n n' : list ascii) :
  map tolower h = map tolower h' -> map tolower n = map tolower n' ->
  strcasestr_from h n = strcasestr_from h' n'.
Proof.
  revert h'. induction h as [|c h IH]; intros h' Hh Hn.
  - destruct h'; [reflexivity|discriminate].
  - destruct h' as [|c' h']; [discriminate|].
    cbn [strcasestr_from].
    rewrite (needle_matches_ext (c :: h) (c' :: h') n n') by assumption.
    rewrite (IH h'); [reflexivity| |assumption].
    simpl in Hh. congruence.
Qed.

Lemma map_tolower_upper (s : list ascii) :
  map tolower (strtoupper_simple s) = map tolower s.
Proof.
  unfold strtoupper_simple. rewrite map_map.
  apply map_ext. apply tolower_toupper.
Qed.

(** X2: the search does not depend on the case of the letters of either
    argument: upper-casing the haystack or the needle (with
    [strtoupper_simple]), or lower-casing them, gives the same result. *)
Theorem strcasestr_simple_ignores_case (h n : list ascii) :
  strcasestr_simple (Some (strtoupper_simple h)) (Some n)
  = strcasestr_simple (Some h) (Some n)
  /\ strcasestr_simple (Some h) (Some (strtoupper_simple n))
     = strcasestr_simple (Some h) (Some n)
  /\ strcasestr_simple (Some (map tolower h)) (Some (map tolower n))
     = strcasestr_simple (Some h) (Some n).
Proof.
  assert (Hlow : forall s, map tolower (map tolower s) = map tolower s).
  { intros s. rewrite map_map. apply map_ext. apply tolower_idempotent. }
  repeat split.
  - destruct n as [|c n]; [reflexivity|]. cbn [strcasestr_simple].
    apply strcasestr_from_ext; [apply map_tolower_upper|reflexivity].
  - destruct n as [|c n]; [reflexivity|].
    change (strtoupper_simple (c :: n))
      with (toupper_az c :: strtoupper_simple n).
    cbn [strcasestr_simple].
    apply strcasestr_from_ext; [reflexivity|].
    apply (map_tolower_upper (c :: n)).
  - destruct n as [|c n]; [reflexivity|].
    cbn [map strcasestr_simple].
    apply strcasestr_from_ext; [apply Hlow|apply (Hlow (c :: n))].
Qed.

(** ** The clock and the sleep *)

(** X3: for a normalized [timespec] (nanoseconds below one second) whose
    seconds fit the 64-bit count of milliseconds, [now_ms] is the time in
    whole milliseconds, rounded down; so it never runs backwards when the
    clock does not. *)
Theorem now_ms_is_floor_of_time (s1 n1 s2 n2 : Z) :
  0 <= s1 -> 0 <= n1 < 1000000000 -> 0 <= n2 < 1000000000 ->
  s2 * 1000 + 1000 <= 2 ^ 64 ->
  s1 * 1000000000 + n1 <= s2 * 1000000000 + n2 ->
  now_ms s1 n1 = (s1 * 1000000000 + n1) / 1000000
  /\ now_ms s2 n2 = (s2 * 1000000000 + n2) / 1000000
  /\ 0 <= now_ms s1 n1 /\ now_ms s1 n1 <= now_ms s2 n2 /\ now_ms s2 n2 < 2 ^ 64.
Proof.
  intros Hs1 Hn1 Hn2 Hs2 Hle.
  assert (Hs12 : s1 <= s2) by nia.
  assert (Hfloor : forall s n, 0 <= s -> s * 1000 + 1000 <= 2 ^ 64 ->
            0 <= n < 1000000000 ->
            now_ms s n = (s * 1000000000 + n) / 1000000
            /\ 0 <= now_ms s n < 2 ^ 64).
  { intros s n Hs Hs' Hn. unfold now_ms.
    assert (Hq : 0 <= n / 1000000 < 1000).
    { split; [apply Z.div_pos; lia|apply Z.div_lt_upper_bound; lia]. }
    assert (H64 : 0 < 2 ^ 64) by reflexivity.
    rewrite (Z.mod_small s), (Z.mod_small n), (Z.mod_small (s * 1000)) by lia.
    rewrite Z.mod_small by lia.
    replace (s * 1000000000 + n) with (s * 1000 * 1000000 + n) by lia.
    rewrite Z.div_add_l by lia. split; lia. }
  destruct (Hfloor s1 n1) as [E1 B1]; [lia..|].
  destruct (Hfloor s2 n2) as [E2 B2]; [lia..|].
  split; [assumption|]. split; [assumption|].
  split; [lia|]. split; [|lia].
  rewrite E1, E2. apply Z.div_le_mono; lia.
Qed.

(** Two readings of the clock, 30 ms and 400 ns apart. *)
Lemma now_ms_is_floor_of_time_witness :
  now_ms 12 999900000 = 12999 /\ now_ms 13 29900400 = 13029.
Proof.
  destruct (now_ms_is_floor_of_time 12 999900000 13 29900400)
    as (E1 & E2 & _); try lia.
  split; [rewrite E1|rewrite E2]; reflexivity.
Defined.

(** X4: [msleep] returns at once for a duration that is zero or negative;
    for a positive one it passes to [nanosleep] a valid [timespec] (seconds
    not negative, nanoseconds below one second) of exactly that many
    milliseconds. *)
Theorem msleep_timespec (ms : Z) :
  (ms <= 0 -> msleep ms = None)
  /\ (0 < ms ->
      exists sec nsec,
        msleep ms = Some (sec, nsec)
        /\ 0 <= sec /\ 0 <= nsec < 1000000000
        /\ sec * 1000000000 + nsec = ms * 1000000).
Proof.
  unfold msleep. split; intros Hms.
  - destruct (Z.leb_spec ms 0); [reflexivity|lia].
  - destruct (Z.leb_spec ms 0); [lia|].
    eexists _, _. split; [reflexivity|].
    rewrite Z.quot_div_nonneg, Z.rem_mod_nonneg by lia.
    pose proof (Z.mod_pos_bound ms 1000 ltac:(lia)).
    pose proof (Z.div_mod ms 1000 ltac:(lia)).
    assert (0 <= ms / 1000) by (apply Z.div_pos; lia).
    lia.
Qed.

(** ** The key press handler *)





Section KeyPress.

Variable XK : fkey -> Z.


End KeyPress.


(** ** The toggles *)

Lemma handle_action_toggle (action : Z) (x : gvar) (c : cursor) (g : globals) :
  flag_of_action action = Some x -> action <> ACTION_SPAM_LMB ->
  globals_after (handle_action action) c g
  = atomic_store x (c_not (atomic_load x g)) g.
Proof.
  unfold flag_of_action. intros Hx Hno.
  repeat match type of Hx with
  | context [action =? ?k] =>
      destruct (Z.eqb_spec action k) as [->|?];
      [try congruence; injection Hx as <-; reflexivity|]
  end.
  discriminate.
Qed.

Lemma handle_action_spam_globals (c : cursor) (g : globals) :
  globals_after (handle_action ACTION_SPAM_LMB) c g
  = atomic_store G_spam_left (c_not (g_spam_left g))
      (if truthy (g_suspended g) then g
       else atomic_store G_saved_y (cursor_y c)
              (atomic_store G_saved_x (cursor_x c) g)).
Proof.
  unfold globals_after. destruct (truthy (g_suspended g)) eqn:Hsus.
  - rewrite handle_action_spam_suspended by assumption. reflexivity.
  - rewrite handle_action_spam_active by assumption. reflexivity.
Qed.

Lemma spam_flag_after (c : cursor) (g : globals) :
  g_spam_left (globals_after (handle_action ACTION_SPAM_LMB) c g)
  = c_not (g_spam_left g).
Proof.
  rewrite handle_action_spam_globals.
  destruct (truthy (g_suspended g)); reflexivity.
Qed.

Lemma atomic_load_store_same (x : gvar) (v : Z) (g : globals) :
  atomic_load x (atomic_store x v g) = v.
Proof. destruct x; reflexivity. Qed.

Lemma atomic_load_store_other (x y : gvar) (v : Z) (g : globals) :
  y <> x -> atomic_load y (atomic_store x v g) = atomic_load y g.
Proof. destruct x, y; intros Hne; try reflexivity; congruence. Qed.

Lemma atomic_store_twice (x : gvar) (v w : Z) (g : globals) :
  atomic_store x v (atomic_store x w g) = atomic_store x v g.
Proof. destruct x; reflexivity. Qed.

Lemma atomic_store_load (x : gvar) (g : globals) :
  atomic_store x (atomic_load x g) g = g.
Proof. destruct x, g; reflexivity. Qed.

Lemma c_not_twice (v : Z) : is_bit v -> c_not (c_not v) = v.
Proof. intros [-> | ->]; reflexivity. Qed.

Lemma truthy_c_not (v : Z) : truthy (c_not v) = negb (truthy v).
Proof. unfold truthy, c_not. destruct (v =? 0); reflexivity. Qed.

(** X7: the hotkey of one of the five actions flips the flag of that
    action and no other flag; only the hotkey of the repeated click, and
    only when the program is not suspended, also writes the saved position.
    Two presses of the same hotkey give the flag its truth value back, and,
    for a hold action whose flag is 0 or 1, give back exactly the globals
    there were. *)
Theorem toggle_flips_own_flag (action : Z) (x : gvar) (c c' : cursor)
    (g : globals) :
  flag_of_action action = Some x ->
  let g1 := globals_after (handle_action action) c g in
  let g2 := globals_after (handle_action action) c' g1 in
  atomic_load x g1 = c_not (atomic_load x g)
  /\ (forall y, y <> x -> y <> G_saved_x -> y <> G_saved_y ->
        atomic_load y g1 = atomic_load y g)
  /\ (action <> ACTION_SPAM_LMB \/ truthy (g_suspended g) = true ->
      g_saved_x g1 = g_saved_x g /\ g_saved_y g1 = g_saved_y g)
  /\ truthy (atomic_load x g2) = truthy (atomic_load x g)
  /\ (action <> ACTION_SPAM_LMB -> is_bit (atomic_load x g) -> g2 = g).
Proof.
  intros Hx g1 g2.
  destruct (Z.eq_dec action ACTION_SPAM_LMB) as [->|Hno].
  - injection Hx as <-. subst g1 g2. cbn [atomic_load].
    rewrite !spam_flag_after.
    split; [reflexivity|].
    split.
    { intros y Hy Hsx Hsy. rewrite handle_action_spam_globals.
      rewrite atomic_load_store_other by assumption.
      destruct (truthy (g_suspended g)); [reflexivity|].
      rewrite !atomic_load_store_other by assumption. reflexivity. }
    split.
    { intros [Hne|Hsus]; [congruence|].
      rewrite handle_action_spam_globals, Hsus. split; reflexivity. }
    split; [|congruence].
    rewrite !truthy_c_not. apply negb_involutive.
  - subst g1 g2. rewrite !(handle_action_toggle action x) by assumption.
    rewrite atomic_store_twice, !atomic_load_store_same.
    split; [reflexivity|].
    split; [intros y Hy _ _; apply atomic_load_store_other; assumption|].
    assert (Hsaved : x <> G_saved_x /\ x <> G_saved_y).
    { unfold flag_of_action in Hx. revert Hx.
      repeat match goal with
      | |- context [action =? ?k] => destruct (action =? k)
      end; intros [= <-] || discriminate; split; discriminate. }
    split.
    { intros _. change (g_saved_x ?h) with (atomic_load G_saved_x h).
      change (g_saved_y ?h) with (atomic_load G_saved_y h).
      rewrite !atomic_load_store_other by (intros E; destruct Hsaved; congruence).
      split; reflexivity. }
    split; [rewrite !truthy_c_not; apply negb_involutive|].
    intros _ Hbit. rewrite c_not_twice by assumption. apply atomic_store_load.
Qed.

(** W is toggled on, then off. *)
Lemma toggle_flips_own_flag_witness :
  globals_after (handle_action ACTION_HOLD_W) (Cursor 1 2)
    (globals_after (handle_action ACTION_HOLD_W) (Cursor 3 4) initial_globals)
  = initial_globals.
Proof.
  apply (toggle_flips_own_flag ACTION_HOLD_W G_hold_w (Cursor 3 4) (Cursor 1 2)
           initial_globals eq_refl).
  - discriminate.
  - left. reflexivity.
Defined.

(** ** Invariants of the running program *)

Lemma c_not_bit (v : Z) : is_bit (c_not v).
Proof. unfold is_bit, c_not. destruct (v =? 0); auto. Qed.

Lemma handle_action_boolean_flags (action : Z) (c : cursor) (g : globals) :
  boolean_flags g -> boolean_flags (globals_after (handle_action action) c g).
Proof.
  intros (Hrun & Hsus & Hspam & Hw & Hs & Hl & Hr).
  pose proof c_not_bit as Hbit.
  assert (H0 : is_bit 0) by (left; reflexivity).
  unfold globals_after, handle_action.
  repeat match goal with
  | |- context [action =? ?k] => destruct (action =? k)
  end;
    try (run_prog; destruct (truthy (g_suspended g));
         cbn; unfold boolean_flags; cbn; repeat split; auto).
Qed.

Lemma run_step_boolean_flags (s : system) (st : step) :
  boolean_flags (sys_globals s) -> boolean_flags (sys_globals (run_step s st)).
Proof.
  intros Hb. destruct st as [action c|now]; unfold run_step.
  - pose proof (handle_action_boolean_flags action c (sys_globals s) Hb) as Hb'.
    unfold globals_after in Hb'.
    destruct (handle_action action c (sys_globals s)) as [[u g'] es]. exact Hb'.
  - destruct (sys_worker_done s); [assumption|].
    destruct (truthy (o_running (observe (sys_globals s) now))).
    + destruct (worker_pass _ _). assumption.
    + destruct Hb as (Hrun & Hsus & _). cbn.
      unfold boolean_flags, is_bit. cbn. tauto.
Qed.

(** X8: in every state the program reaches from its start, by any
    sequence of hotkeys and passes of the worker, the running flag, the
    suspend flag and the five action flags hold 0 or 1. *)
Theorem flags_stay_boolean (steps : list step) :
  boolean_flags (sys_globals (run steps initial_system)).
Proof.
  assert (Hgen : forall s, boolean_flags (sys_globals s) ->
                           boolean_flags (sys_globals (run steps s))).
  { induction steps as [|st steps IH]; intros s Hb; [assumption|].
    apply IH, run_step_boolean_flags, Hb. }
  apply Hgen. unfold boolean_flags, is_bit. cbn. tauto.
Qed.

Lemma handle_action_keeps_stop (action : Z) (c : cursor) (g : globals) :
  truthy (g_running g) = false ->
  truthy (g_running (globals_after (handle_action action) c g)) = false.
Proof.
  intros Hstop. unfold globals_after, handle_action.
  repeat match goal with
  | |- context [action =? ?k] => destruct (action =? k)
  end;
    try (run_prog; destruct (truthy (g_suspended g)); cbn; auto).
Qed.

Lemma run_step_keeps_stop (s : system) (st : step) :
  truthy (g_running (sys_globals s)) = false ->
  truthy (g_running (sys_globals (run_step s st))) = false.
Proof.
  intros Hstop. destruct st as [action c|now]; unfold run_step.
  - pose proof (handle_action_keeps_stop action c (sys_globals s) Hstop) as H'.
    unfold globals_after in H'.
    destruct (handle_action action c (sys_globals s)) as [[u g'] es]. exact H'.
  - destruct (sys_worker_done s); [assumption|].
    cbn [observe o_running atomic_load]. rewrite Hstop. cbn. assumption.
Qed.

Lemma run_step_done (s : system) (st : step) :
  sys_worker_done s = true ->
  sys_worker_done (run_step s st) = true
  /\ sys_events (run_step s st) = sys_events s.
Proof.
  intros Hdone. destruct st as [action c|now]; unfold run_step.
  - destruct (handle_action action c (sys_globals s)) as [[u g'] es].
    split; [assumption|reflexivity].
  - rewrite Hdone. split; [assumption|reflexivity].
Qed.

Lemma run_cons (st : step) (steps : list step) (s : system) :
  run (st :: steps) s = run steps (run_step s st).
Proof. reflexivity. Qed.

Lemma run_app (steps steps' : list step) (s : system) :
  run (steps ++ steps') s = run steps' (run steps s).
Proof. unfold run. apply fold_left_app. Qed.

Lemma run_keeps_stop (steps : list step) (s : system) :
  truthy (g_running (sys_globals s)) = false ->
  truthy (g_running (sys_globals (run steps s))) = false.
Proof.
  revert s. induction steps as [|st steps IH]; intros s Hstop; [assumption|].
  rewrite run_cons. apply IH, run_step_keeps_stop, Hstop.
Qed.

Lemma poll_after_stop (s : system) (now : Z) :
  truthy (g_running (sys_globals s)) = false ->
  sys_worker_done (run_step s (Poll now)) = true.
Proof.
  intros Hstop. unfold run_step.
  destruct (sys_worker_done s) eqn:Hdone; [assumption|].
  cbn [observe o_running atomic_load]. rewrite Hstop. reflexivity.
Qed.

Lemma exit_stops (s : system) (c : cursor) :
  truthy (g_running (sys_globals (run_step s (Hotkey ACTION_EXIT c)))) = false.
Proof. reflexivity. Qed.

(** X9: the stop cannot be undone.  Once [g_running] is zero no hotkey
    makes it non-zero again, and the next pass of the worker is its last;
    once the worker has returned it stays so and emits no further event,
    whatever hotkeys and passes follow. *)
Theorem stop_is_final (steps : list step) (s : system) :
  (truthy (g_running (sys_globals s)) = false ->
   truthy (g_running (sys_globals (run steps s))) = false
   /\ forall now, sys_worker_done (run_step (run steps s) (Poll now)) = true)
  /\ (sys_worker_done s = true ->
      sys_worker_done (run steps s) = true
      /\ sys_events (run steps s) = sys_events s).
Proof.
  split.
  - intros Hstop.
    pose proof (run_keeps_stop steps s Hstop) as Hlast.
    split; [assumption|].
    intros now. apply poll_after_stop. assumption.
  - revert s. induction steps as [|st steps IH]; intros s Hdone.
    + split; [assumption|reflexivity].
    + rewrite run_cons.
      destruct (run_step_done s st Hdone) as [Hd He].
      destruct (IH _ Hd) as [Hd' He']. split; [assumption|congruence].
Qed.

(** The exit hotkey, then W toggled and two passes. *)
Lemma stop_is_final_witness :
  sys_worker_done
    (run [Hotkey ACTION_HOLD_W (Cursor 0 0); Poll 5; Poll 6]
       (run [Hotkey ACTION_EXIT (Cursor 0 0); Poll 1] initial_system))
  = true
  /\ sys_events
       (run [Hotkey ACTION_HOLD_W (Cursor 0 0); Poll 5; Poll 6]
          (run [Hotkey ACTION_EXIT (Cursor 0 0); Poll 1] initial_system))
     = sys_events (run [Hotkey ACTION_EXIT (Cursor 0 0); Poll 1] initial_system).
Proof.
  apply (proj2 (stop_is_final _ _)). reflexivity.
Defined.

(** ** The physical state of the outputs *)

Lemma held_after_app (out : output) (t1 t2 : list event) (d : bool) :
  held_after out (t1 ++ t2) d = held_after out t2 (held_after out t1 d).
Proof. unfold held_after. apply fold_left_app. Qed.

Lemma held_after_set_all_up (out : output) (g : globals) (d : bool) :
  held_after out (snd (set_all_up g)) d = false.
Proof. destruct out; reflexivity. Qed.

Lemma done_means_released (steps : list step) (s : system) :
  (sys_worker_done s = true ->
   forall out, held_after out (sys_events s) false = false) ->
  sys_worker_done (run steps s) = true ->
  forall out, held_after out (sys_events (run steps s)) false = false.
Proof.
  revert s. induction steps as [|st steps IH]; intros s Hinv; [exact Hinv|].
  rewrite run_cons. apply IH. clear IH.
  destruct st as [action c|now]; unfold run_step.
  - destruct (handle_action action c (sys_globals s)) as [[u g'] es]. exact Hinv.
  - destruct (sys_worker_done s) eqn:Hdone;
      [intros _; apply Hinv; reflexivity|].
    destruct (truthy (o_running (observe (sys_globals s) now))).
    + destruct (worker_pass _ _). cbn. discriminate.
    + intros _ out. cbn [set_all_up sys_events].
      rewrite held_after_app.
      apply (held_after_set_all_up out (sys_globals s)).
Qed.

(** X10: nothing is left held down.  Whatever hotkeys and passes of the
    worker came before, once the exit hotkey has been handled the next
    pass of the worker is its last, and after it each of the four outputs
    (W, S, left and right button) is physically released. *)
Theorem exit_releases_everything (steps : list step) (c : cursor) (now : Z) :
  let s := run (steps ++ [Hotkey ACTION_EXIT c; Poll now]) initial_system in
  sys_worker_done s = true
  /\ forall out, held_after out (sys_events s) false = false.
Proof.
  intros s.
  assert (Hdone : sys_worker_done s = true).
  { subst s. rewrite run_app.
    rewrite !run_cons. apply poll_after_stop, exit_stops. }
  split; [assumption|].
  apply (done_means_released _ initial_system); [discriminate|assumption].
Qed.



Lemma held_after_spam_block (out : output) (o : observation) (lc : Z) (st : bool) :
  held_after out (snd (spam_block o lc)) st
  = if output_eqb OUT_LEFT out then
      if truthy (o_spam_left o) && (30 <=? (o_now o - lc) mod UINT64_MOD)
      then false else st
    else st.
Proof.
  unfold spam_block, held_after.
  destruct (truthy (o_spam_left o)); [|destruct out; reflexivity].
  destruct (30 <=? (o_now o - lc) mod UINT64_MOD); destruct out; reflexivity.
Qed.





(** The state of an output after a pass. *)
Lemma held_after_pass (out : output) (o : observation) (l : locals) (st : bool) :
  held_after out (snd (worker_pass o l)) st
  = if truthy (o_suspended o) then
      held_after out
        (snd (release_if_down ACTION_HOLD_RMB (SendMouseBtn 1) (rmb_is_down l)))
        (held_after out
           (snd (release_if_down ACTION_HOLD_LMB (SendMouseBtn 0) (lmb_is_down l)))
           (held_after out
              (snd (release_if_down ACTION_HOLD_S (SendKey KEY_S) (s_is_down l)))
              (held_after out
                 (snd (release_if_down ACTION_HOLD_W (SendKey KEY_W) (w_is_down l)))
                 st)))
    else
      held_after out (snd (spam_block o (last_click l)))
        (held_after out
           (snd (hold_block ACTION_HOLD_RMB (SendMouseBtn 1) (o_hold_rmb o)
                   (rmb_is_down l)))
           (held_after out
              (snd (hold_block ACTION_HOLD_LMB (SendMouseBtn 0) (o_hold_lmb o)
                      (lmb_is_down l)))
              (held_after out
                 (snd (hold_block ACTION_HOLD_S (SendKey KEY_S) (o_hold_s o)
                         (s_is_down l)))
                 (held_after out
                    (snd (hold_block ACTION_HOLD_W (SendKey KEY_W) (o_hold_w o)
                            (w_is_down l)))
                    st)))).
Proof.
  rewrite worker_pass_events.
  destruct (truthy (o_suspended o)); rewrite !held_after_app; reflexivity.
Qed.




(** X12: a click releases the held left button.  In a pass that is not
    suspended and reads both the hold of the left button and the click as
    on, once 30 ms have passed since the last click the pass ends with the
    left button physically up while [lmb_is_down] says it is down; and as
    long as the following passes read the hold as on, the hold block never
    presses the button again. *)
Theorem click_releases_held_left_button (o : observation) (l : locals)
    (st : bool) (os : list observation) :
  truthy (o_suspended o) = false ->
  truthy (o_hold_lmb o) = true ->
  truthy (o_spam_left o) = true ->
  30 <= (o_now o - last_click l) mod UINT64_MOD ->
  steady_on ACTION_HOLD_LMB os ->
  held_after OUT_LEFT (snd (worker_pass o l)) st = false
  /\ truthy (lmb_is_down (fst (worker_pass o l))) = true
  /\ events_of ACTION_HOLD_LMB (loop_events os (fst (worker_pass o l))) = [].
Proof.
  intros Hsus Hhold Hspam Hel Hos.
  assert (Hdown : truthy (lmb_is_down (fst (worker_pass o l))) = true).
  { rewrite worker_pass_locals, Hsus. cbn [lmb_is_down].
    unfold hold_block. rewrite Hhold.
    destruct (truthy (lmb_is_down l)) eqn:E; cbn; [assumption|reflexivity]. }
  split; [|split; [assumption|]].
  - rewrite held_after_pass, Hsus, held_after_spam_block, Hspam.
    destruct (Z.leb_spec 30 ((o_now o - last_click l) mod UINT64_MOD)); [|lia].
    reflexivity.
  - apply steady_on_no_event; [right; right; left; reflexivity|assumption|].
    exact Hdown.
Qed.

(** The left button is held; the click fires at 1000 ms. *)
Lemma click_releases_held_left_button_witness :
  held_after OUT_LEFT
    (snd (worker_pass (Observation 1 0 0 0 1 0 1 1000 100 200)
            (Locals 0 0 1 0 0))) true
  = false
  /\ truthy (lmb_is_down
               (fst (worker_pass (Observation 1 0 0 0 1 0 1 1000 100 200)
                       (Locals 0 0 1 0 0)))) = true
  /\ events_of ACTION_HOLD_LMB
       (loop_events [Observation 1 0 0 0 1 0 1 1010 100 200]
          (fst (worker_pass (Observation 1 0 0 0 1 0 1 1000 100 200)
                  (Locals 0 0 1 0 0)))) = [].
Proof.
  apply (click_releases_held_left_button
           (Observation 1 0 0 0 1 0 1 1000 100 200) (Locals 0 0 1 0 0) true
           [Observation 1 0 0 0 1 0 1 1010 100 200]);
    try reflexivity.
  - vm_compute. discriminate.
  - repeat constructor.
Defined.

(** ** Key names and key codes *)

Section KeyNames.

Variable XK : fkey -> Z.

Lemma code_known_spec (code : Z) :
  code_known XK code = true <-> exists k, code = XK k.
Proof.
  unfold code_known. rewrite existsb_exists. split.
  - intros (k & _ & Hk). exists k. apply Z.eqb_eq. assumption.
  - intros [k ->]. exists k. split; [destruct k; simpl; tauto|apply Z.eqb_refl].
Qed.

Lemma key_name_from_code_unknown (code : Z) :
  code_known XK code = false -> key_name_from_code XK code = lit "?".
Proof.
  intros Hno. unfold key_name_from_code.
  repeat match goal with
  | |- context [code =? XK ?k] =>
      destruct (Z.eqb_spec code (XK k)) as [E|_];
      [assert (code_known XK code = true)
         by (apply code_known_spec; exists k; assumption); congruence|]
  end.
  reflexivity.
Qed.

Lemma key_name_from_code_cases (code : Z) :
  (code_known XK code = false /\ key_name_from_code XK code = lit "?")
  \/ (exists k, code_known XK code = true /\ XK k = code
                /\ key_name_from_code XK code = fname k).
Proof.
  destruct (code_known XK code) eqn:Hk.
  - right. apply code_known_spec in Hk. destruct Hk as [k ->].
    destruct (key_name_from_code_known XK k) as (k' & Hname & Hcode).
    exists k'. split; [reflexivity|]. split; assumption.
  - left. split; [reflexivity|apply key_name_from_code_unknown; assumption].
Qed.

Lemma toupper_idempotent (c : ascii) : toupper_az (toupper_az c) = toupper_az c.
Proof. destruct c as [[] [] [] [] [] [] [] []]; reflexivity. Qed.

Lemma strtoupper_take (n : nat) (s : list ascii) :
  strtoupper_simple (take n s) = take n (strtoupper_simple s).
Proof. unfold strtoupper_simple. symmetry. apply firstn_map. Qed.

Lemma strtoupper_idempotent (s : list ascii) :
  strtoupper_simple (strtoupper_simple s) = strtoupper_simple s.
Proof.
  unfold strtoupper_simple. rewrite map_map. apply map_ext, toupper_idempotent.
Qed.

(** X13: the name written for a key code reads back as that code when the
    code is one of the nine known keys; any other code is written as "?",
    which reads back as no key (zero).  A key name is read without regard
    to the case of its letters. *)
Theorem key_name_code_roundtrip (code : Z) (name : list ascii) :
  (code_known XK code = true ->
   key_code_from_name XK (key_name_from_code XK code) = code)
  /\ (code_known XK code = false ->
      key_name_from_code XK code = lit "?"
      /\ key_code_from_name XK (key_name_from_code XK code) = 0)
  /\ key_code_from_name XK (strtoupper_simple name) = key_code_from_name XK name.
Proof.
  split; [|split].
  - intros Hk.
    destruct (key_name_from_code_cases code) as [[Hno _]|(k & _ & Hcode & ->)];
      [congruence|].
    rewrite key_code_from_fname. assumption.
  - intros Hno. rewrite key_name_from_code_unknown by assumption.
    split; reflexivity.
  - unfold key_code_from_name.
    rewrite strtoupper_take, strtoupper_idempotent, <- strtoupper_take.
    destruct name; reflexivity.
Qed.

End KeyNames.

(** The code of F9 on X11, and a code that is no known key. *)
Lemma key_name_code_roundtrip_witness :
  key_code_from_name x11_keysym (key_name_from_code x11_keysym 0xffc6) = 0xffc6
  /\ key_code_from_name x11_keysym (key_name_from_code x11_keysym 0x20) = 0.
Proof.
  split.
  - apply (proj1 (key_name_code_roundtrip x11_keysym 0xffc6 [])). reflexivity.
  - apply (proj1 (proj2 (key_name_code_roundtrip x11_keysym 0x20 []))).
    reflexivity.
Defined.

Section KeyNamesInjective.

Variable XK : fkey -> Z.

(** The key codes of the platform are distinct. *)
Hypothesis XK_injective : forall k k', XK k = XK k' -> k = k'.

Lemma key_code_from_name_recognized (name : list ascii) :
  key_code_from_name XK name <> 0 ->
  exists k, key_code_from_name XK name = XK k
            /\ strtoupper_simple (take 15 name) = fname k.
Proof.
  unfold key_code_from_name. destruct name as [|c name]; [congruence|].
  set (buf := strtoupper_simple (take 15 (c :: name))).
  assert (Hstr : forall a b, strcmp_eq a b = true -> a = b).
  { induction a as [|x a IH]; intros [|y b]; simpl; try discriminate; auto.
    intros H. apply andb_prop in H. destruct H as [Hxy Hab].
    apply Ascii.eqb_eq in Hxy. f_equal; auto. }
  repeat match goal with
  | |- context [strcmp_eq buf (lit ?s)] =>
      destruct (strcmp_eq buf (lit s)) eqn:E;
      [apply Hstr in E; intros _; eexists; split; [reflexivity|exact E]|clear E]
  end.
  congruence.
Qed.

(** X14: when the key codes of the platform are distinct, a key name that
    [key_code_from_name] recognizes (its result is not zero) is, in upper
    case, the name [key_name_from_code] gives back for its code; such a
    name has at most three characters. *)
Theorem key_code_name_roundtrip (name : list ascii) :
  key_code_from_name XK name <> 0 ->
  key_name_from_code XK (key_code_from_name XK name) = strtoupper_simple name
  /\ (length name <= 3)%nat.
Proof.
  intros Hrec.
  destruct (key_code_from_name_recognized name Hrec) as (k & -> & Hname).
  destruct (key_name_from_code_known XK k) as (k' & Hk' & Hcode).
  apply XK_injective in Hcode. subst k'.
  assert (Hlen : (length (take 15 name) <= 3)%nat).
  { rewrite <- (length_map toupper_az).
    change (map toupper_az (take 15 name)) with (strtoupper_simple (take 15 name)).
    rewrite Hname. destruct k; simpl; lia. }
  assert (Hshort : (length name <= 3)%nat).
  { rewrite length_take in Hlen. lia. }
  split; [|assumption].
  rewrite Hk', <- Hname. rewrite take_ge by lia. reflexivity.
Qed.

End KeyNamesInjective.

Lemma x11_keysym_injective (k k' : fkey) : x11_keysym k = x11_keysym k' -> k = k'.
Proof. destruct k, k'; intros H; try reflexivity; discriminate H. Qed.

(** The name "f10", in lower case. *)
Lemma key_code_name_roundtrip_witness :
  key_name_from_code x11_keysym (key_code_from_name x11_keysym (lit "f10"))
  = lit "F10"
  /\ (length (lit "f10") <= 3)%nat.
Proof.
  apply (key_code_name_roundtrip x11_keysym x11_keysym_injective (lit "f10")).
  discriminate.
Defined.

(** ** More on the configuration file *)

Lemma action_name_short (name : list ascii) :
  In name g_action_names -> ~ In NL name /\ (length name <= 8)%nat.
Proof.
  unfold g_action_names. simpl.
  intros H.
  repeat (destruct H as [<-|H];
          [split; [vm_compute; intuition discriminate|vm_compute; lia]|]).
  destruct H.
Qed.

Lemma config_line_fgets_short (name kname rest : list ascii) :
  In name g_action_names -> ~ In NL kname -> (length kname <= 3)%nat ->
  fgets 256 (config_line name kname ++ rest) = Some (config_line name kname, rest).
Proof.
  intros Hin Hnl Hlen. destruct (action_name_short name Hin) as [Hnl' Hlen'].
  unfold config_line.
  replace ((name ++ ["="%char] ++ kname ++ [NL]) ++ rest)
    with ((name ++ ["="%char] ++ kname) ++ NL :: rest)
    by (rewrite <- !app_assoc; reflexivity).
  replace (name ++ ["="%char] ++ kname ++ [NL])
    with ((name ++ ["="%char] ++ kname) ++ [NL])
    by (rewrite <- !app_assoc; reflexivity).
  apply fgets_line.
  - rewrite !in_app_iff. simpl. intros [H|[[H|[]]|H]]; try tauto. discriminate H.
  - rewrite !length_app. simpl. lia.
Qed.

Section SaveLoad.

Variable XK : fkey -> Z.
Hypothesis XK_nonzero : forall k, XK k <> 0.

Lemma written_name_short (code : Z) :
  ~ In NL (key_name_from_code XK code)
  /\ (length (key_name_from_code XK code) <= 3)%nat.
Proof.
  destruct (key_name_from_code_cases XK code) as [[_ ->]|(k & _ & _ & ->)].
  - split; [vm_compute; intuition discriminate|vm_compute; lia].
  - destruct k; (split; [vm_compute; intuition discriminate|vm_compute; lia]).
Qed.

Lemma load_unknown_line (i : nat) (name : list ascii) (keys : list Z) :
  g_action_names !! i = Some name ->
  load_line XK (config_line name (lit "?")) keys = keys.
Proof.
  intros Hname. unfold g_action_names in Hname.
  do 7 (destruct i as [|i]; [injection Hname as <-; reflexivity|]).
  destruct i; discriminate.
Qed.

(** Loading a line that [save_hotkey_config] wrote for [code]. *)
Lemma load_written_line (i : nat) (name : list ascii) (code : Z) (keys : list Z) :
  g_action_names !! i = Some name ->
  load_line XK (config_line name (key_name_from_code XK code)) keys
  = if code_known XK code then <[i := code]> keys else keys.
Proof.
  intros Hname.
  destruct (key_name_from_code_cases XK code) as [[-> ->]|(k & -> & <- & ->)].
  - apply (load_unknown_line i). assumption.
  - apply load_saved_line; assumption.
Qed.

Lemma lookup_step_ne (b : bool) (i j : nat) (c : Z) (t : list Z) :
  i <> j -> (if b then <[j := c]> t else t) !! i = t !! i.
Proof. intros Hne. destruct b; [apply list_lookup_insert_ne; congruence|reflexivity]. Qed.

Lemma lookup_step_eq (b : bool) (i : nat) (c : Z) (t : list Z) :
  (i < length t)%nat ->
  (if b then <[i := c]> t else t) !! i = if b then Some c else t !! i.
Proof. intros Hlt. destruct b; [apply list_lookup_insert_eq; assumption|reflexivity]. Qed.

Lemma length_step (b : bool) (j : nat) (c : Z) (t : list Z) :
  length (if b then <[j := c]> t else t) = length t.
Proof. destruct b; [apply length_insert|reflexivity]. Qed.

Lemma load_saved_table (c0 c1 c2 c3 c4 c5 c6 : Z) (keys0 : list Z) :
  load_hotkey_config XK
    (Some (save_loop XK g_action_names [c0; c1; c2; c3; c4; c5; c6])) keys0
  = (if code_known XK c6 then <[6%nat := c6]> else id)
      ((if code_known XK c5 then <[5%nat := c5]> else id)
         ((if code_known XK c4 then <[4%nat := c4]> else id)
            ((if code_known XK c3 then <[3%nat := c3]> else id)
               ((if code_known XK c2 then <[2%nat := c2]> else id)
                  ((if code_known XK c1 then <[1%nat := c1]> else id)
                     ((if code_known XK c0 then <[0%nat := c0]> else id)
                        keys0)))))).
Proof.
  unfold g_action_names. cbn [save_loop].
  repeat (erewrite load_config_step;
          [|apply config_line_fgets_short;
            [unfold g_action_names; simpl; tauto
            |apply written_name_short|apply written_name_short]]).
  rewrite load_config_eof.
  rewrite (load_written_line 0 (lit "Spam LMB")) by reflexivity.
  rewrite (load_written_line 1 (lit "Hold W")) by reflexivity.
  rewrite (load_written_line 2 (lit "Hold S")) by reflexivity.
  rewrite (load_written_line 3 (lit "Hold RMB")) by reflexivity.
  rewrite (load_written_line 4 (lit "Hold LMB")) by reflexivity.
  rewrite (load_written_line 5 (lit "Suspend")) by reflexivity.
  rewrite (load_written_line 6 (lit "Exit")) by reflexivity.
  repeat match goal with
  | |- context [code_known XK ?c] => destruct (code_known XK c)
  end; reflexivity.
Qed.

End SaveLoad.

Section SaveLoadAny.

Variable XK : fkey -> Z.
Hypothesis XK_nonzero : forall k, XK k <> 0.

(** X15: for any table of [ACTION_COUNT] entries, saving it and loading
    the file into another table restores exactly the bindings whose code is
    a known key; a binding with any other code is written as "?" and the
    table loaded into keeps its own entry for that action. *)
Theorem save_then_load_any_table (keys keys0 : list Z)
    (cfg : option (list ascii)) (i : nat) (c : Z) :
  length keys = Z.to_nat ACTION_COUNT ->
  length keys0 = Z.to_nat ACTION_COUNT ->
  keys !! i = Some c ->
  load_hotkey_config XK (save_hotkey_config XK true cfg keys) keys0 !! i
  = if code_known XK c then Some c else keys0 !! i.
Proof.
  intros Hlen Hlen0 Hc.
  do 7 (destruct keys as [|? keys]; [discriminate|]).
  destruct keys; [|discriminate].
  do 7 (destruct keys0 as [|? keys0]; [discriminate|]).
  destruct keys0; [|discriminate].
  unfold save_hotkey_config. rewrite (load_saved_table XK XK_nonzero).
  do 7 (destruct i as [|i];
        [injection Hc as ->;
         repeat match goal with
         | |- context [code_known XK ?x] => destruct (code_known XK x)
         end; reflexivity|]).
  destruct i; discriminate.
Qed.

(** X16: the last line of a file decides.  In a file whose lines fit the
    buffer, a last line [name=key] with the name of action [i] and the name
    of a known key binds that action to that key, whatever the lines
    before bound it to, and leaves the other bindings as the lines before
    give them. *)
Theorem last_line_wins (lines : list (list ascii)) (i : nat)
    (name : list ascii) (k : fkey) (keys : list Z) :
  Forall fits_buffer lines ->
  g_action_names !! i = Some name ->
  load_hotkey_config XK (Some (file_of_lines (lines ++ [binding_line name k]))) keys
  = <[i := XK k]>
      (load_hotkey_config XK (Some (file_of_lines lines)) keys).
Proof.
  intros Hfit Hname.
  assert (Hin : In name g_action_names).
  { apply list_elem_of_In. eapply list_elem_of_lookup_2. eassumption. }
  destruct (action_name_short name Hin) as [Hnl Hlen].
  assert (Hline : fits_buffer (binding_line name k)).
  { unfold fits_buffer, binding_line. split.
    - rewrite !in_app_iff. simpl.
      intros [H|[[H|[]]|H]]; [tauto|discriminate H|].
      destruct k; vm_compute in H; intuition discriminate.
    - rewrite !length_app. simpl.
      assert (length (fname k) <= 3)%nat by (destruct k; vm_compute; lia). lia. }
  assert (Hall : Forall fits_buffer (lines ++ [binding_line name k])).
  { apply Forall_app. split; [assumption|].
    apply Forall_cons. split; [assumption|apply Forall_nil_2]. }
  rewrite !load_short_lines by assumption.
  rewrite fold_left_app. cbn [fold_left].
  replace (binding_line name k ++ [NL]) with (config_line name (fname k))
    by (unfold binding_line, config_line; rewrite <- !app_assoc; reflexivity).
  apply load_saved_line; assumption.
Qed.

End SaveLoadAny.

Ltac check_fits :=
  repeat (apply Forall_cons; split;
          [split; [vm_compute; intuition discriminate|vm_compute; lia]|]);
  apply Forall_nil_2.

(** The zeroed table is saved and loaded over the defaults of X11: the
    defaults stay. *)
Lemma save_then_load_any_table_witness :
  load_hotkey_config x11_keysym
    (save_hotkey_config x11_keysym true None g_action_keys_zero)
    (init_default_hotkeys x11_keysym g_action_keys_zero) !! 1%nat
  = Some (x11_keysym F3).
Proof.
  apply (save_then_load_any_table x11_keysym x11_keysym_nonzero
           g_action_keys_zero
           (init_default_hotkeys x11_keysym g_action_keys_zero)
           None 1%nat 0);
    reflexivity.
Defined.

(** Two lines for "Hold W": the second one decides. *)
Lemma last_line_wins_witness :
  load_hotkey_config x11_keysym
    (Some (file_of_lines ([lit "Hold W=F8"] ++ [binding_line (lit "Hold W") F11])))
    (init_default_hotkeys x11_keysym g_action_keys_zero) !! 1%nat
  = Some (x11_keysym F11).
Proof.
  rewrite (last_line_wins x11_keysym x11_keysym_nonzero [lit "Hold W=F8"] 1
             (lit "Hold W") F11).
  - reflexivity.
  - check_fits.
  - reflexivity.
Defined.

Section Skipping.

Variable XK : fkey -> Z.

(** X17: in a file whose lines fit the buffer, a line is skipped, and the
    bindings loaded are those of the file without it, when it starts
    with ['#'], when it holds white space only, when it does not have the
    form [name=key], when its name is the name of no action, or when its
    key is the name of no known key. *)
Theorem unusable_lines_are_skipped (before after : list (list ascii))
    (ln : list ascii) (keys : list Z) :
  Forall fits_buffer (before ++ ln :: after) ->
  comment_or_blank ln
  \/ fst (fst (parsed ln)) <> 2
  \/ find_action_from 0 g_action_names (snd (fst (parsed ln))) = -1
  \/ key_code_from_name XK (snd (parsed ln)) = 0 ->
  load_hotkey_config XK (Some (file_of_lines (before ++ ln :: after))) keys
  = load_hotkey_config XK (Some (file_of_lines (before ++ after))) keys.
Proof.
  intros Hfit Hskip.
  assert (Hfit' : Forall fits_buffer (before ++ after)).
  { apply Forall_app in Hfit. destruct Hfit as [Hb Ha].
    apply Forall_app. split; [assumption|].
    apply Forall_cons in Ha. tauto. }
  rewrite !load_short_lines by assumption.
  rewrite !fold_left_app. cbn [fold_left]. f_equal.
  destruct Hskip as [Hcb|[Hform|Hrec]].
  - apply load_line_comment_or_blank. assumption.
  - unfold load_line. destruct (_ || _); [reflexivity|].
    unfold parsed in Hform.
    destruct (sscanf_key_val (c_str (ln ++ [NL]))) as [[n key] val].
    cbn [fst] in Hform. destruct (Z.eqb_spec n 2); [congruence|reflexivity].
  - apply load_line_not_recognized. exact Hrec.
Qed.

(** X18: loading a configuration file, whatever its content, keeps the
    number of entries of the table, and puts in an entry nothing but the
    code of a known key: every entry afterwards is the entry before or
    such a code, and a table of known codes stays one. *)
Theorem load_keeps_known_codes (cfg : option (list ascii)) (keys : list Z) :
  length (load_hotkey_config XK cfg keys) = length keys
  /\ (forall i : nat,
        load_hotkey_config XK cfg keys !! i = keys !! i
        \/ exists k, load_hotkey_config XK cfg keys !! i = Some (XK k))
  /\ (known XK keys -> known XK (load_hotkey_config XK cfg keys)).
Proof.
  split; [apply (load_assigns_known_codes XK cfg keys 0)|].
  split; [intros i; apply (load_assigns_known_codes XK cfg keys i)|].
  intros Hk. destruct cfg as [f|]; [|assumption].
  apply load_loop_known. assumption.
Qed.

End Skipping.

(** A line that names F5, which is no known key, between a good line and
    a comment. *)
Lemma unusable_lines_are_skipped_witness :
  load_hotkey_config x11_keysym
    (Some (file_of_lines ([lit "Exit=F8"] ++ lit "Exit=F5" :: [lit "# end"])))
    (init_default_hotkeys x11_keysym g_action_keys_zero)
  = load_hotkey_config x11_keysym
      (Some (file_of_lines ([lit "Exit=F8"] ++ [lit "# end"])))
      (init_default_hotkeys x11_keysym g_action_keys_zero).
Proof.
  apply (unusable_lines_are_skipped x11_keysym [lit "Exit=F8"] [lit "# end"]
           (lit "Exit=F5")).
  - check_fits.
  - right. right. right. reflexivity.
Defined.

(** ** The text of the overlay *)

Section OverlayText.

Variable XK : fkey -> Z.

Lemma overlay_format_length (keys : list Z) :
  (length (overlay_format XK keys) <= 120)%nat.
Proof.
  unfold overlay_format. rewrite !length_app.
  repeat match goal with
  | |- context [length (key_name_from_code XK ?c)] =>
      let H := fresh "H" in
      pose proof (proj2 (written_name_short XK c)) as H;
      generalize dependent (length (key_name_from_code XK c)); intros
  end.
  repeat match goal with
  | |- context [length (lit ?s)] =>
      let n := eval vm_compute in (length (lit s)) in
      change (length (lit s)) with n
  end.
  lia.
Qed.

Lemma active_text_length (g : globals) : (length (active_text g) <= 24)%nat.
Proof.
  unfold active_text.
  repeat match goal with
  | |- context [if ?b then _ else _] => destruct b
  end; vm_compute; lia.
Qed.

(** X19: the status line always fits its buffers.  Whatever the bindings
    and the flags, the text of [build_overlay_text] has at most 120
    characters and is not cut by the 512-byte buffer, the list of active
    actions has at most 24 characters (the [strcat] calls stay inside the
    128 bytes of [active]), and the line drawn is the text, followed when
    some flag is set by " | Active:" and that list, at most 154 characters
    in all.  For a buffer of [n + 1] bytes the text is cut to [n]
    characters, and a buffer of size zero is left untouched. *)
Theorem status_line_fits (keys : list Z) (g : globals) :
  build_overlay_text XK keys 512 [] = overlay_format XK keys
  /\ (length (overlay_format XK keys) <= 120)%nat
  /\ (length (active_text g) <= 24)%nat
  /\ status_line XK keys g
     = overlay_format XK keys
       ++ match active_text g with
          | [] => []
          | _ => lit " | Active:" ++ active_text g
          end
  /\ (length (status_line XK keys g) <= 154)%nat
  /\ (forall (n : nat) (old : list ascii),
        build_overlay_text XK keys (S n) old = take n (overlay_format XK keys)
        /\ (length (build_overlay_text XK keys (S n) old) <= n)%nat
        /\ build_overlay_text XK keys 0 old = old).
Proof.
  pose proof (overlay_format_length keys) as Hfmt.
  pose proof (active_text_length g) as Hact.
  assert (Hbuild : build_overlay_text XK keys 512 [] = overlay_format XK keys).
  { unfold build_overlay_text. apply take_ge. lia. }
  assert (Hline : status_line XK keys g
                  = overlay_format XK keys
                    ++ match active_text g with
                       | [] => []
                       | _ => lit " | Active:" ++ active_text g
                       end).
  { unfold status_line. rewrite Hbuild.
    destruct (active_text g) as [|a rest] eqn:Ha; [symmetry; apply app_nil_r|].
    unfold strncat.
    assert (Hl : length (lit " | Active:") = 10%nat) by reflexivity.
    rewrite (take_ge (lit " | Active:")) by lia.
    rewrite take_ge by (rewrite length_app; lia).
    rewrite <- app_assoc. reflexivity. }
  split; [assumption|]. split; [assumption|]. split; [assumption|].
  split; [assumption|]. split.
  - rewrite Hline, length_app.
    destruct (active_text g) as [|a rest]; [simpl; lia|].
    rewrite length_app.
    change (length (lit " | Active:")) with 10%nat. lia.
  - intros n old. split; [reflexivity|]. split; [|reflexivity].
    cbn [build_overlay_text]. rewrite length_take. lia.
Qed.

End OverlayText.

(** ** Outputs follow the flags *)




(** ** The search of the game window *)

Lemma file_matches_spec (content : option (list ascii)) :
  match content with
  | Some bytes =>
      match take 511 bytes with
      | [] => false
      | buf => truthy (strcasestr_simple (Some (c_str buf)) (Some (lit "foxhole")))
      end
  | None => false
  end = true
  <-> contains_foxhole content.
Proof.
  unfold contains_foxhole. destruct content as [bytes|].
  - assert (Hspec : truthy (strcasestr_simple (Some (c_str (take 511 bytes)))
                              (Some (lit "foxhole"))) = true
                    <-> exists pre post,
                          map tolower (c_str (take 511 bytes))
                          = pre ++ lit "foxhole" ++ post).
    { change (strcasestr_simple (Some (c_str (take 511 bytes))) (Some (lit "foxhole")))
        with (strcasestr_from (c_str (take 511 bytes)) (lit "foxhole")).
      rewrite <- (strcasestr_from_spec (c_str (take 511 bytes)) (lit "foxhole"))
        by discriminate.
      destruct (strcasestr_from_bool (c_str (take 511 bytes)) (lit "foxhole"))
        as [-> | ->]; split; (reflexivity || discriminate). }
    destruct (take 511 bytes) as [|b buf] eqn:Htake.
    + split; [discriminate|]. intros (bytes' & pre & post & [= <-] & Hc).
      rewrite Htake in Hc. destruct pre; discriminate.
    + rewrite Hspec. split.
      * intros (pre & post & Hc). exists bytes, pre, post.
        rewrite Htake. split; [reflexivity|assumption].
      * intros (bytes' & pre & post & [= <-] & Hc). rewrite Htake in Hc.
        exists pre, post. assumption.
  - split; [discriminate|]. intros (bytes & pre & post & Hc & _). discriminate.
Qed.

(** X21: [process_matches_foxhole] returns 1 exactly when the process id
    is not zero and the executable path or the first string of the command
    line, as far as they fit the 512-byte buffer, contains "foxhole",
    whatever the case of the letters; otherwise it returns 0. *)
Theorem process_matches_foxhole_spec (pid : Z) (exe cmdline : option (list ascii)) :
  (process_matches_foxhole pid exe cmdline = 1
   <-> pid <> 0 /\ (contains_foxhole exe \/ contains_foxhole cmdline))
  /\ (process_matches_foxhole pid exe cmdline = 0
      \/ process_matches_foxhole pid exe cmdline = 1).
Proof.
  unfold process_matches_foxhole.
  destruct (Z.eqb_spec pid 0) as [->|Hpid].
  - split; [|left; reflexivity]. split; [discriminate|intros [H _]; congruence].
  - pose proof (file_matches_spec exe) as Hexe.
    pose proof (file_matches_spec cmdline) as Hcmd.
    destruct (match exe with Some _ => _ | None => _ end).
    + split; [|right; reflexivity].
      split; [intros _; split; [assumption|left; apply Hexe; reflexivity]|reflexivity].
    + destruct (match cmdline with Some _ => _ | None => _ end).
      * split; [|right; reflexivity].
        split; [intros _; split; [assumption|right; apply Hcmd; reflexivity]
               |reflexivity].
      * split; [|left; reflexivity].
        split; [discriminate|].
        intros [_ [H|H]]; [apply Hexe in H|apply Hcmd in H]; discriminate.
Qed.

Lemma process_matches_bool (pid : Z) (exe cmdline : option (list ascii)) :
  process_matches_foxhole pid exe cmdline = 0
  \/ process_matches_foxhole pid exe cmdline = 1.
Proof.
  unfold process_matches_foxhole.
  destruct (pid =? 0); [left; reflexivity|].
  destruct (match exe with Some _ => _ | None => _ end); [right; reflexivity|].
  destruct (match cmdline with Some _ => _ | None => _ end);
    [right; reflexivity|left; reflexivity].
Qed.

Lemma nodes_unfold (w : window) :
  nodes w = w :: flat_map nodes (window_children w).
Proof.
  destruct w as [id pid kids]. reflexivity.
Qed.

Lemma in_take (A : Type) (n : nat) (l : list A) (x : A) :
  In x (take n l) -> In x l.
Proof.
  revert n. induction l as [|y l IH]; intros [|n]; simpl; try tauto.
  intros [H|H]; [left; assumption|right; eapply IH; eassumption].
Qed.

Section Search.

Variable exe_of : Z -> option (list ascii).
Variable cmdline_of : Z -> option (list ascii).

Abbreviation matches := (window_matches exe_of cmdline_of).

Lemma find_loop_sound (fuel : nat) (stack : list window) :
  find_loop exe_of cmdline_of fuel stack <> 0 ->
  exists w, In w (flat_map nodes stack) /\ matches w = true
            /\ window_id w = find_loop exe_of cmdline_of fuel stack.
Proof.
  revert stack. induction fuel as [|fuel IH]; intros stack; [simpl; congruence|].
  destruct stack as [|w rest]; [simpl; congruence|].
  cbn [find_loop]. destruct (matches w) eqn:Hm.
  - intros _. exists w. split; [|split; [assumption|reflexivity]].
    cbn [flat_map]. rewrite nodes_unfold. left. reflexivity.
  - intros Hr. destruct (IH _ Hr) as (w' & Hin & Hm' & Hid).
    exists w'. split; [|split; assumption].
    cbn [flat_map]. rewrite nodes_unfold.
    rewrite flat_map_app in Hin. apply in_app_iff in Hin.
    right. apply in_app_iff. destruct Hin as [Hin|Hin]; [left|right; assumption].
    apply in_flat_map in Hin. destruct Hin as (k & Hk & Hw').
    apply in_flat_map. exists k. split; [|assumption].
    apply in_rev in Hk. eapply in_take. eassumption.
Qed.

Lemma length_le_nodes (l : list window) :
  (length l <= length (flat_map nodes l))%nat.
Proof.
  induction l as [|w l IH]; [reflexivity|].
  cbn [flat_map]. rewrite nodes_unfold, length_app. simpl. lia.
Qed.

Lemma length_nodes_rev (l : list window) :
  length (flat_map nodes (rev l)) = length (flat_map nodes l).
Proof.
  induction l as [|w l IH]; [reflexivity|].
  cbn [rev flat_map]. rewrite flat_map_app, !length_app, IH.
  cbn [flat_map]. rewrite app_nil_r. lia.
Qed.

Lemma find_loop_complete (fuel : nat) (stack : list window) :
  (length (flat_map nodes stack) <= fuel)%nat ->
  (length (flat_map nodes stack) <= STACK_SIZE)%nat ->
  (exists w, In w (flat_map nodes stack) /\ matches w = true) ->
  exists w, In w (flat_map nodes stack) /\ matches w = true
            /\ find_loop exe_of cmdline_of fuel stack = window_id w.
Proof.
  revert stack. induction fuel as [|fuel IH]; intros stack Hfuel Hsize (w0 & Hin0 & Hm0).
  - destruct (flat_map nodes stack); [destruct Hin0|simpl in Hfuel; lia].
  - destruct stack as [|w rest]; [destruct Hin0|].
    cbn [find_loop]. destruct (matches w) eqn:Hm.
    + exists w. split; [|split; [assumption|reflexivity]].
      cbn [flat_map]. rewrite nodes_unfold. left. reflexivity.
    + cbn [flat_map] in Hfuel, Hsize, Hin0.
      rewrite nodes_unfold in Hfuel, Hsize, Hin0.
      cbn [length app] in Hfuel, Hsize. rewrite !length_app in Hfuel, Hsize.
      pose proof (length_le_nodes rest) as Hrest.
      pose proof (length_le_nodes (window_children w)) as Hkids.
      rewrite take_ge by lia.
      destruct (IH (rev (window_children w) ++ rest)) as (w' & Hin' & Hm' & Hr).
      * rewrite flat_map_app, length_app, length_nodes_rev. lia.
      * rewrite flat_map_app, length_app, length_nodes_rev. lia.
      * exists w0. split; [|assumption].
        destruct Hin0 as [<-|Hin0]; [congruence|].
        rewrite flat_map_app. apply in_app_iff.
        apply in_app_iff in Hin0. destruct Hin0 as [Hin0|Hin0]; [left|right; assumption].
        apply in_flat_map in Hin0. destruct Hin0 as (k & Hk & Hw0).
        apply in_flat_map. exists k.
        split; [apply in_rev in Hk; assumption|assumption].
      * exists w'. split; [|split; assumption].
        cbn [flat_map]. rewrite nodes_unfold. right.
        rewrite flat_map_app in Hin'. apply in_app_iff.
        apply in_app_iff in Hin'. destruct Hin' as [Hin'|Hin']; [left|right; assumption].
        apply in_flat_map in Hin'. destruct Hin' as (k & Hk & Hw').
        apply in_flat_map. exists k. split; [apply in_rev; assumption|assumption].
Qed.

(** X22: [find_target_window] only returns a window of a matching
    process.  A result that is not zero is the id of a window of the tree
    whose [_NET_WM_PID] property could be read and names a process for
    which [process_matches_foxhole] returns 1; without the [_NET_WM_PID]
    atom the result is zero. *)
Theorem find_target_window_sound (root : window) :
  (find_target_window exe_of cmdline_of true root <> 0 ->
   exists w pid,
     In w (nodes root)
     /\ window_id w = find_target_window exe_of cmdline_of true root
     /\ window_pid w = Some pid
     /\ process_matches_foxhole pid (exe_of pid) (cmdline_of pid) = 1)
  /\ find_target_window exe_of cmdline_of false root = 0.
Proof.
  split; [|reflexivity].
  unfold find_target_window. intros Hr.
  destruct (find_loop_sound _ _ Hr) as (w & Hin & Hm & Hid).
  cbn [flat_map] in Hin. rewrite app_nil_r in Hin.
  unfold window_matches in Hm. destruct (window_pid w) as [pid|] eqn:Hpid;
    [|discriminate].
  exists w, pid. split; [assumption|]. split; [assumption|]. split; [assumption|].
  destruct (process_matches_bool pid (exe_of pid) (cmdline_of pid)) as [E|E];
    [rewrite E in Hm; discriminate|assumption].
Qed.

(** X23: in a tree of at most 1024 windows the bounded stack loses no
    window: when some window of the tree belongs to a matching process,
    [find_target_window] returns the id of such a window. *)
Theorem find_target_window_complete (root : window) :
  (length (nodes root) <= STACK_SIZE)%nat ->
  (exists w, In w (nodes root) /\ matches w = true) ->
  exists w, In w (nodes root) /\ matches w = true
            /\ find_target_window exe_of cmdline_of true root = window_id w.
Proof.
  intros Hsize Hex. unfold find_target_window.
  destruct (find_loop_complete (length (nodes root)) [root])
    as (w & Hin & Hm & Hr).
  - cbn [flat_map]. rewrite app_nil_r. lia.
  - cbn [flat_map]. rewrite app_nil_r. assumption.
  - cbn [flat_map]. rewrite app_nil_r. assumption.
  - exists w. cbn [flat_map] in Hin. rewrite app_nil_r in Hin.
    split; [assumption|]. split; assumption.
Qed.

End Search.

(** A root window without the property and two children; the second one
    belongs to process 42, whose executable is [/opt/Foxhole/War.exe]. *)
Lemma find_target_window_complete_witness :
  exists w,
    In w (nodes (Window 1 None [Window 2 (Some 7) []; Window 3 (Some 42) []]))
    /\ window_matches
         (fun pid => if pid =? 42 then Some (lit "/opt/Foxhole/War.exe") else None)
         (fun _ => None) w = true
    /\ find_target_window
         (fun pid => if pid =? 42 then Some (lit "/opt/Foxhole/War.exe") else None)
         (fun _ => None) true
         (Window 1 None [Window 2 (Some 7) []; Window 3 (Some 42) []])
       = window_id w.
Proof.
  apply (find_target_window_complete
           (fun pid => if pid =? 42 then Some (lit "/opt/Foxhole/War.exe") else None)
           (fun _ => None)
           (Window 1 None [Window 2 (Some 7) []; Window 3 (Some 42) []])).
  - vm_compute. lia.
  - exists (Window 3 (Some 42) []). split; [simpl; tauto|reflexivity].
Defined.
